(** * Agora backend: voting, reporting and moderation routes

    A shallow embedding of [routes/votes.js], [routes/reports.js],
    [routes/moderation.js] and [middleware/moderation.js] over a model of the
    SQLite store they talk to.

    The store is the tables of [schema.sql] and [002_add_moderation.sql] as
    lists of rows in rowid order.  Columns hold what the code writes into
    them: integers and strings, never NULL where the code never writes NULL;
    integers are unbounded.  A statement that breaks a UNIQUE or CHECK
    constraint is rejected, as SQLite rejects it.  [db.js] never turns
    foreign keys on, so the ON DELETE clauses of the schema do nothing.

    Every route handler is an [async] function: it runs synchronously up to
    the next [await db.get / db.all / db.run], hands one statement to the
    store and resumes with the answer.  A handler is therefore embedded as a
    [Task]: a tree whose nodes are the awaited statements.  Running a task
    alone to its end gives the sequential meaning of a request ([run]);
    stepping several tasks under a schedule gives the interleavings that a
    server with several requests in flight can produce ([interleave]). *)

From Stdlib Require Import ZArith List String Ascii Bool Lia DecimalString.
Import ListNotations.

Local Open Scope string_scope.
Local Open Scope Z_scope.

(** ** JavaScript values that appear in the handlers *)

(** [Array.prototype.includes] on an array of strings. *)
Definition includes (l : list string) (x : string) : bool :=
  existsb (String.eqb x) l.

(** Truthiness of a possibly absent number and of a possibly absent string:
    [undefined], [0] and the empty string are falsy, and a truthy value is
    handed on.  Ids in request bodies are taken to be JSON integers. *)
Definition truthyNum (v : option Z) : option Z :=
  match v with
  | Some z => if z =? 0 then None else Some z
  | None => None
  end.

Definition truthyStr (v : option string) : option string :=
  match v with
  | Some s => if (s =? "")%string then None else Some s
  | None => None
  end.

(** Template-literal interpolation of an integer. *)
Definition numToString (z : Z) : string :=
  NilZero.string_of_int (Z.to_int z).

(** A word between double quotes, as the error messages write it. *)
Definition quoted (s : string) : string :=
  String (ascii_of_nat 34) s ++ String (ascii_of_nat 34) EmptyString.

(** [String.prototype.trim], for the ASCII white space characters. *)
Definition isSpace (c : ascii) : bool :=
  let n := N_of_ascii c in
  ((9 <=? n) && (n <=? 13) || (n =? 32))%N.

Fixpoint trimStart (s : string) : string :=
  match s with
  | String c s' => if isSpace c then trimStart s' else s
  | EmptyString => EmptyString
  end.

Fixpoint trimEnd (s : string) : string :=
  match s with
  | String c s' =>
      match trimEnd s' with
      | EmptyString => if isSpace c then EmptyString else String c EmptyString
      | t => String c t
      end
  | EmptyString => EmptyString
  end.

Definition trim (s : string) : string := trimEnd (trimStart s).

(** JSON values sent back to the client, and a response: the status set by
    [res.status] (200 when only [res.json] is called) with the object handed
    to [res.json], its keys in the order written. *)
Inductive JVal : Type :=
| JNull
| JNum (z : Z)
| JStr (s : string).

Record Response : Type := mkResponse {
  status : Z;
  body : list (string * JVal)
}.

Fixpoint field (key : string) (o : list (string * JVal)) : option JVal :=
  match o with
  | [] => None
  | (k, v) :: o' => if (k =? key)%string then Some v else field key o'
  end.

Definition hasField (key : string) (r : Response) : bool :=
  match field key (body r) with
  | Some _ => true
  | None => false
  end.

Definition errorReply (code : Z) (msg : string) : Response :=
  mkResponse code [("error", JStr msg)].

(** The [catch] block shared by every handler. *)
Definition internalError : Response :=
  errorReply 500 "Internal server error".

(** ** The store: [schema.sql] and [002_add_moderation.sql] *)

Record UserRow : Type := mkUser {
  users_id : Z;
  username : string;
  role : string;
  is_banned : Z
}.

Record PostRow : Type := mkPost {
  post_id : Z;
  title : string;
  post_author_id : Z;
  post_votes : Z
}.

Record CommentRow : Type := mkComment {
  comment_id : Z;
  comment_post_id : Z;
  comment_author_id : Z;
  comment_body : string;
  comment_votes : Z
}.

Record VoteRow : Type := mkVote {
  vote_id : Z;
  user_id : Z;
  item_id : Z;
  item_type : string;
  vote_type : string
}.

Record ReportRow : Type := mkReport {
  report_id : Z;
  reporter_id : Z;
  reported_item_id : Z;
  reported_item_type : string;
  reason : option string;
  report_status : string
}.

Record LogRow : Type := mkLog {
  log_id : Z;
  moderator_id : Z;
  action : string;
  target_type : string;
  target_id : option Z;
  details : option string
}.

(** The tables hold their rows in rowid order; [seq_*] is the
    [sqlite_sequence] entry of an AUTOINCREMENT table. *)
Record Store : Type := mkStore {
  users : list UserRow;
  posts : list PostRow;
  comments : list CommentRow;
  votes : list VoteRow;
  reports : list ReportRow;
  moderation_logs : list LogRow;
  seq_votes : Z;
  seq_reports : Z;
  seq_logs : Z
}.

(** AUTOINCREMENT: one more than the largest rowid the table ever held. *)
Definition nextRowid (seq : Z) (ids : list Z) : Z :=
  1 + fold_right Z.max seq ids.

(** ** Tasks: handlers as trees of awaited statements *)

(** [DbGet q k] awaits a read ([db.get], [db.all]) and resumes with its
    answer.  [DbRun u k kerr] awaits a write ([db.run]): the store accepts it
    and the task resumes with [k], or rejects it (a constraint fails) and the
    task resumes with [kerr].  [Throw] is an exception on its way to the
    enclosing [catch]. *)
Inductive Task (A : Type) : Type :=
| Ret (a : A)
| Throw
| DbGet {R : Type} (q : Store -> R) (k : R -> Task A)
| DbRun (u : Store -> option Store) (k kerr : Task A).

Arguments Ret {A} a.
Arguments Throw {A}.
Arguments DbGet {A R} q k.
Arguments DbRun {A} u k kerr.

(** [await db.run(...)] with nothing around it: a rejection throws. *)
Definition dbRun {A} (u : Store -> option Store) (k : Task A) : Task A :=
  DbRun u k Throw.

(** [try { t } catch (error) { h }]. *)
Fixpoint tryCatch {A} (t : Task A) (h : Task A) : Task A :=
  match t with
  | Ret a => Ret a
  | Throw => h
  | DbGet q k => DbGet q (fun r => tryCatch (k r) h)
  | DbRun u k kerr => DbRun u (tryCatch k h) (tryCatch kerr h)
  end.

Fixpoint bind {A B} (t : Task A) (f : A -> Task B) : Task B :=
  match t with
  | Ret a => f a
  | Throw => Throw
  | DbGet q k => DbGet q (fun r => bind (k r) f)
  | DbRun u k kerr => DbRun u (bind k f) (bind kerr f)
  end.

(** One awaited statement, executed atomically by the store. *)
Definition step {A} (t : Task A) (st : Store) : Store * Task A :=
  match t with
  | Ret a => (st, Ret a)
  | Throw => (st, Throw)
  | DbGet q k => (st, k (q st))
  | DbRun u k kerr =>
      match u st with
      | Some st' => (st', k)
      | None => (st, kerr)
      end
  end.

(** A task run alone to its end; [None] is an exception nobody caught. *)
Fixpoint run {A} (t : Task A) (st : Store) : Store * option A :=
  match t with
  | Ret a => (st, Some a)
  | Throw => (st, None)
  | DbGet q k => run (k (q st)) st
  | DbRun u k kerr =>
      match u st with
      | Some st' => run k st'
      | None => run kerr st
      end
  end.

Definition finished {A} (t : Task A) : bool :=
  match t with
  | Ret _ | Throw => true
  | _ => false
  end.

(** Several requests in flight: the schedule names, statement by statement,
    the task whose awaited statement the store executes next. *)
Fixpoint stepAt {A} (i : nat) (ts : list (Task A)) (st : Store) {struct ts}
  : Store * list (Task A) :=
  match ts, i with
  | [], _ => (st, [])
  | t :: ts', O => let (st', t') := step t st in (st', t' :: ts')
  | t :: ts', S j => let (st', ts'') := stepAt j ts' st in (st', t :: ts'')
  end.

Fixpoint interleave {A} (sched : list nat) (ts : list (Task A)) (st : Store)
  : Store * list (Task A) :=
  match sched with
  | [] => (st, ts)
  | i :: sched' => let (st', ts') := stepAt i ts st in interleave sched' ts' st'
  end.

(** ** SQL statements *)

(** [const tableName = itemType === 'post' ? 'posts' : 'comments'] *)
Definition tableNameFor (itemType : string) : string :=
  if (itemType =? "post")%string then "posts" else "comments".

Definition withPosts (st : Store) (ps : list PostRow) : Store :=
  mkStore (users st) ps (comments st) (votes st) (reports st)
    (moderation_logs st) (seq_votes st) (seq_reports st) (seq_logs st).

Definition withComments (st : Store) (cs : list CommentRow) : Store :=
  mkStore (users st) (posts st) cs (votes st) (reports st)
    (moderation_logs st) (seq_votes st) (seq_reports st) (seq_logs st).

Definition withUsers (st : Store) (us : list UserRow) : Store :=
  mkStore us (posts st) (comments st) (votes st) (reports st)
    (moderation_logs st) (seq_votes st) (seq_reports st) (seq_logs st).

Definition withReports (st : Store) (rs : list ReportRow) (seq : Z) : Store :=
  mkStore (users st) (posts st) (comments st) (votes st) rs
    (moderation_logs st) (seq_votes st) seq (seq_logs st).

Definition withLogs (st : Store) (ls : list LogRow) (seq : Z) : Store :=
  mkStore (users st) (posts st) (comments st) (votes st) (reports st)
    ls (seq_votes st) (seq_reports st) seq.

Definition withVotes (st : Store) (vs : list VoteRow) (seq : Z) : Store :=
  mkStore (users st) (posts st) (comments st) vs (reports st)
    (moderation_logs st) seq (seq_reports st) (seq_logs st).

(** [SELECT id FROM ${tableName} WHERE id = ?] *)
Definition selectItemId (tableName : string) (id : Z) (st : Store) : option Z :=
  if (tableName =? "posts")%string
  then option_map post_id (find (fun p => post_id p =? id) (posts st))
  else option_map comment_id (find (fun c => comment_id c =? id) (comments st)).

(** [SELECT votes FROM ${tableName} WHERE id = ?] *)
Definition selectItemVotes (tableName : string) (id : Z) (st : Store) : option Z :=
  if (tableName =? "posts")%string
  then option_map post_votes (find (fun p => post_id p =? id) (posts st))
  else option_map comment_votes (find (fun c => comment_id c =? id) (comments st)).

(** [UPDATE ${tableName} SET votes = votes + ? WHERE id = ?] *)
Definition addPostVotes (delta id : Z) (p : PostRow) : PostRow :=
  if post_id p =? id
  then mkPost (post_id p) (title p) (post_author_id p) (post_votes p + delta)
  else p.

Definition addCommentVotes (delta id : Z) (c : CommentRow) : CommentRow :=
  if comment_id c =? id
  then mkComment (comment_id c) (comment_post_id c) (comment_author_id c)
         (comment_body c) (comment_votes c + delta)
  else c.

Definition addVotesTo (tableName : string) (delta id : Z) (st : Store)
  : Store :=
  if (tableName =? "posts")%string
  then withPosts st (map (addPostVotes delta id) (posts st))
  else withComments st (map (addCommentVotes delta id) (comments st)).

Definition addVotes (tableName : string) (delta id : Z) (st : Store)
  : option Store :=
  Some (addVotesTo tableName delta id st).

(** [WHERE user_id = ? AND item_id = ? AND item_type = ?] on [votes]. *)
Definition voteBy (uid itemId : Z) (itemType : string) (v : VoteRow) : bool :=
  (user_id v =? uid) && (item_id v =? itemId)
  && (item_type v =? itemType)%string.

(** [SELECT id, vote_type FROM votes WHERE user_id = ? AND item_id = ? AND
    item_type = ?] *)
Definition selectVote (uid itemId : Z) (itemType : string) (st : Store)
  : option VoteRow :=
  find (voteBy uid itemId itemType) (votes st).

(** The CHECK constraints of [votes]. *)
Definition checkVote (v : VoteRow) : bool :=
  includes ["post"; "comment"] (item_type v)
  && includes ["up"; "down"] (vote_type v).

(** [DELETE FROM votes WHERE id = ?] *)
Definition deleteVote (id : Z) (st : Store) : option Store :=
  Some (withVotes st (filter (fun v => negb (vote_id v =? id)) (votes st))
          (seq_votes st)).

(** [UPDATE votes SET vote_type = ? WHERE id = ?]; the rows written must pass
    the CHECK constraints. *)
Definition setVoteType (voteType : string) (id : Z) (v : VoteRow) : VoteRow :=
  if vote_id v =? id
  then mkVote (vote_id v) (user_id v) (item_id v) (item_type v) voteType
  else v.

Definition updateVoteType (voteType : string) (id : Z) (st : Store)
  : option Store :=
  if forallb (fun v => checkVote (setVoteType voteType id v))
       (filter (fun v => vote_id v =? id) (votes st))
  then Some (withVotes st (map (setVoteType voteType id) (votes st))
               (seq_votes st))
  else None.

(** [INSERT INTO votes (user_id, item_id, item_type, vote_type) VALUES
    (?, ?, ?, ?)]: rejected when a CHECK constraint or
    [UNIQUE(user_id, item_id, item_type)] fails. *)
Definition insertVote (uid itemId : Z) (itemType voteType : string)
  (st : Store) : option Store :=
  let row :=
    mkVote (nextRowid (seq_votes st) (map vote_id (votes st)))
      uid itemId itemType voteType in
  if checkVote row && negb (existsb (voteBy uid itemId itemType) (votes st))
  then Some (withVotes st (votes st ++ [row])%list (vote_id row))
  else None.

(** ** [routes/votes.js] ([src/unnamed/part_005]): POST /api/votes *)

(** What [authenticateToken] leaves in [req.user]. *)
Record Principal : Type := mkPrincipal {
  principal_id : Z;
  principal_username : string
}.

(** Lines 77-81: the response; [updatedItem.votes] throws when the item row
    is gone. *)
Definition voteReply (action : string) (updatedItem : option Z)
  (currentVote : option VoteRow) : Task Response :=
  match updatedItem with
  | Some updatedVotes =>
      Ret (mkResponse 200
             [("message", JStr ("Vote " ++ action ++ " successfully"));
              ("votes", JNum updatedVotes);
              ("userVote",
                match currentVote with
                | Some v => JStr (vote_type v)
                | None => JNull
                end)])
  | None => Throw
  end.

(** Lines 71-81: read the caller's vote back and answer. *)
Definition readUserVote (uid itemId : Z) (itemType action : string)
  (updatedItem : option Z) : Task Response :=
  DbGet (selectVote uid itemId itemType) (voteReply action updatedItem).

(** Lines 68-69: read the counter back. *)
Definition readCounter (uid itemId : Z) (itemType action : string)
  : Task Response :=
  DbGet (selectItemVotes (tableNameFor itemType) itemId)
    (readUserVote uid itemId itemType action).

(** Lines 63-66: apply the delta to the counter, as one relative update. *)
Definition applyVoteDelta (uid itemId : Z) (itemType : string)
  (voteDelta : Z) (action : string) : Task Response :=
  dbRun (addVotes (tableNameFor itemType) voteDelta itemId)
    (readCounter uid itemId itemType action).

(** Lines 38-61: the three cases on [existingVote]. *)
Definition decideVote (uid itemId : Z) (itemType voteType : string)
  (existingVote : option VoteRow) : Task Response :=
  match existingVote with
  | Some ev =>
      if (vote_type ev =? voteType)%string
      then
        dbRun (deleteVote (vote_id ev))
          (applyVoteDelta uid itemId itemType
             (if (voteType =? "up")%string then -1 else 1) "removed")
      else
        dbRun (updateVoteType voteType (vote_id ev))
          (applyVoteDelta uid itemId itemType
             (if (voteType =? "up")%string then 2 else -2) "updated")
  | None =>
      dbRun (insertVote uid itemId itemType voteType)
        (applyVoteDelta uid itemId itemType
           (if (voteType =? "up")%string then 1 else -1) "created")
  end.

(** Lines 32-36: look the caller's vote on the item up. *)
Definition findVote (uid itemId : Z) (itemType voteType : string)
  : Task Response :=
  DbGet (selectVote uid itemId itemType)
    (decideVote uid itemId itemType voteType).

(** Lines 25-30: verify that the item exists. *)
Definition verifyItem (uid itemId : Z) (itemType voteType : string)
  : Task Response :=
  DbGet (selectItemId (tableNameFor itemType) itemId) (fun item =>
  match item with
  | None => Ret (errorReply 404 (itemType ++ " not found"))
  | Some _ => findVote uid itemId itemType voteType
  end).

Definition castVote (user : Principal) (itemId : option Z)
  (itemType voteType : option string) : Task Response :=
  tryCatch
    (match truthyNum itemId, truthyStr itemType, truthyStr voteType with
     | Some itemId, Some itemType, Some voteType =>
         if negb (includes ["post"; "comment"] itemType)
         then Ret (errorReply 400
                    ("itemType must be " ++ quoted "post" ++ " or "
                     ++ quoted "comment"))
         else if negb (includes ["up"; "down"] voteType)
         then Ret (errorReply 400
                    ("voteType must be " ++ quoted "up" ++ " or "
                     ++ quoted "down"))
         else verifyItem (principal_id user) itemId itemType voteType
     | _, _, _ =>
         Ret (errorReply 400 "itemId, itemType, and voteType are required")
     end)
    (Ret internalError).

(** ** [routes/reports.js]: POST /api/reports *)

(** [WHERE reporter_id = ? AND reported_item_id = ? AND
    reported_item_type = ?] on [reports]. *)
Definition reportBy (uid itemId : Z) (itemType : string) (r : ReportRow)
  : bool :=
  (reporter_id r =? uid) && (reported_item_id r =? itemId)
  && (reported_item_type r =? itemType)%string.

(** [SELECT id FROM reports WHERE reporter_id = ? AND reported_item_id = ?
    AND reported_item_type = ?]: no condition on [status]. *)
Definition selectReport (uid itemId : Z) (itemType : string) (st : Store)
  : option ReportRow :=
  find (reportBy uid itemId itemType) (reports st).

(** The CHECK constraints of [reports]. *)
Definition checkReport (r : ReportRow) : bool :=
  includes ["post"; "comment"] (reported_item_type r)
  && includes ["pending"; "reviewed"; "dismissed"] (report_status r).

(** [INSERT INTO reports (reporter_id, reported_item_id, reported_item_type,
    reason) VALUES (?, ?, ?, ?)]: [status] takes its default ['pending'];
    rejected when a CHECK constraint or
    [UNIQUE(reporter_id, reported_item_id, reported_item_type)] fails. *)
Definition insertReport (uid itemId : Z) (itemType : string)
  (why : option string) (st : Store) : option Store :=
  let row :=
    mkReport (nextRowid (seq_reports st) (map report_id (reports st)))
      uid itemId itemType why "pending" in
  if checkReport row
     && negb (existsb (reportBy uid itemId itemType) (reports st))
  then Some (withReports st (reports st ++ [row])%list (report_id row))
  else None.

(** [reason && reason.length > 500] *)
Definition reasonTooLong (reason : option string) : bool :=
  match truthyStr reason with
  | Some r => 500 <? Z.of_nat (String.length r)
  | None => false
  end.

(** [reason?.trim() || null] *)
Definition storedReason (reason : option string) : option string :=
  match reason with
  | Some r => truthyStr (Some (trim r))
  | None => None
  end.

Definition submitReport (user : Principal) (itemId : option Z)
  (itemType reason : option string) : Task Response :=
  tryCatch
    (match truthyNum itemId, truthyStr itemType with
     | Some itemId, Some itemType =>
         if negb (includes ["post"; "comment"] itemType)
         then Ret (errorReply 400
                    ("itemType must be " ++ quoted "post" ++ " or "
                     ++ quoted "comment"))
         else if reasonTooLong reason
         then Ret (errorReply 400 "Reason too long (max 500 characters)")
         else
           let tableName := tableNameFor itemType in
           DbGet (selectItemId tableName itemId) (fun item =>
           match item with
           | None => Ret (errorReply 404 (itemType ++ " not found"))
           | Some _ =>
               DbGet (selectReport (principal_id user) itemId itemType)
                 (fun existingReport =>
               match existingReport with
               | Some _ =>
                   Ret (errorReply 409 "You have already reported this content")
               | None =>
                   dbRun
                     (insertReport (principal_id user) itemId itemType
                        (storedReason reason))
                     (Ret (mkResponse 201
                             [("message",
                                JStr "Report submitted successfully")]))
               end)
           end)
     | _, _ => Ret (errorReply 400 "itemId and itemType are required")
     end)
    (Ret internalError).

(** ** [middleware/moderation.js] *)

(** [SELECT id, username, role, is_banned FROM users WHERE id = ?] *)
Definition selectUserById (id : Z) (st : Store) : option UserRow :=
  find (fun u => users_id u =? id) (users st).

(** The middleware either answers itself ([inl]) or stores the fetched row in
    [req.user] and calls [next()] ([inr]). *)
Definition requireModerator (reqUser : option Principal)
  : Task (Response + UserRow) :=
  match reqUser with
  | None => Ret (inl (errorReply 401 "Authentication required"))
  | Some caller =>
      tryCatch
        (DbGet (selectUserById (principal_id caller)) (fun user =>
         match user with
         | None => Ret (inl (errorReply 401 "User not found"))
         | Some user =>
             if negb (includes ["moderator"; "admin"] (role user))
             then Ret (inl (errorReply 403 "Moderator access required"))
             else Ret (inr user)
         end))
        (Ret (inl internalError))
  end.

(** [router.use(requireModerator)] in front of a route of
    [routes/moderation.js]. *)
Definition moderated (reqUser : option Principal)
  (handler : UserRow -> Task Response) : Task Response :=
  bind (requireModerator reqUser) (fun decision =>
  match decision with
  | inl answer => Ret answer
  | inr user => handler user
  end).

(** The CHECK constraint of [moderation_logs]. *)
Definition checkLog (l : LogRow) : bool :=
  includes ["post"; "comment"; "user"; "report"] (target_type l).

(** [INSERT INTO moderation_logs (moderator_id, action, target_type,
    target_id, details) VALUES (?, ?, ?, ?, ?)] *)
Definition insertLog (moderatorId : Z) (act targetType : string)
  (targetId : option Z) (info : option string) (st : Store) : option Store :=
  let row :=
    mkLog (nextRowid (seq_logs st) (map log_id (moderation_logs st)))
      moderatorId act targetType targetId info in
  if checkLog row
  then Some (withLogs st (moderation_logs st ++ [row])%list (log_id row))
  else None.

(** The helper has a [try]/[catch] of its own that only prints: whether the
    insert is accepted or rejected, the caller goes on. *)
Definition logModerationAction {A} (moderatorId : Z) (act targetType : string)
  (targetId : option Z) (info : option string) (next : Task A) : Task A :=
  DbRun (insertLog moderatorId act targetType targetId info) next next.

(** ** [routes/moderation.js] *)

(** [WHERE id IN (?, ..., ?)] *)
Definition idIn (ids : list Z) (id : Z) : bool := existsb (Z.eqb id) ids.

(** [SELECT id, title FROM posts WHERE id IN (...)] *)
Definition selectPostsIn (ids : list Z) (st : Store) : list PostRow :=
  filter (fun p => idIn ids (post_id p)) (posts st).

(** [DELETE FROM posts WHERE id IN (...)].  [db.js] opens the connection
    without [PRAGMA foreign_keys = ON], so the statement touches [posts]
    only. *)
Definition deletePostsIn (ids : list Z) (st : Store) : option Store :=
  Some (withPosts st (filter (fun p => negb (idIn ids (post_id p))) (posts st))).

(** POST /api/mod/posts/bulk-delete; [postIds] is [None] when the body field
    is not an array. *)
Definition bulkDeletePosts (user : UserRow) (postIds : option (list Z))
  : Task Response :=
  tryCatch
    (match postIds with
     | Some postIds =>
         if (List.length postIds =? 0)%nat
         then Ret (errorReply 400 "postIds array is required")
         else
           DbGet (selectPostsIn postIds) (fun found =>
           if (List.length found =? 0)%nat
           then Ret (errorReply 404 "No posts found")
           else
             dbRun (deletePostsIn postIds)
               (logModerationAction (users_id user) "bulk_delete_posts" "post"
                  None
                  (Some ("Bulk deleted "
                         ++ numToString (Z.of_nat (List.length found))
                         ++ " posts: "
                         ++ String.concat ", " (map title found)))
                  (Ret (mkResponse 200
                          [("message",
                             JStr (numToString (Z.of_nat (List.length found))
                                   ++ " posts deleted successfully"));
                           ("deletedCount",
                             JNum (Z.of_nat (List.length found)))]))))
     | None => Ret (errorReply 400 "postIds array is required")
     end)
    (Ret internalError).

(** [SELECT id, username, is_banned FROM users WHERE username = ?] *)
Definition selectUserByName (name : string) (st : Store) : option UserRow :=
  find (fun u => (username u =? name)%string) (users st).

(** [UPDATE users SET is_banned = ? WHERE id = ?] with the constant 1 or 0. *)
Definition setBanned (flag id : Z) (u : UserRow) : UserRow :=
  if users_id u =? id
  then mkUser (users_id u) (username u) (role u) flag
  else u.

Definition updateBanned (flag id : Z) (st : Store) : option Store :=
  Some (withUsers st (map (setBanned flag id) (users st))).

(** POST /api/mod/users/:username/ban *)
Definition banUser (user : UserRow) (name : string) : Task Response :=
  tryCatch
    (DbGet (selectUserByName name) (fun target =>
     match target with
     | None => Ret (errorReply 404 "User not found")
     | Some target =>
         if negb (is_banned target =? 0)
         then Ret (errorReply 400 "User is already banned")
         else
           dbRun (updateBanned 1 (users_id target))
             (logModerationAction (users_id user) "ban_user" "user"
                (Some (users_id target)) (Some ("Banned user: " ++ name))
                (Ret (mkResponse 200
                        [("message",
                           JStr ("User " ++ name ++ " has been banned"))])))
     end))
    (Ret internalError).

(** POST /api/mod/users/:username/unban *)
Definition unbanUser (user : UserRow) (name : string) : Task Response :=
  tryCatch
    (DbGet (selectUserByName name) (fun target =>
     match target with
     | None => Ret (errorReply 404 "User not found")
     | Some target =>
         if is_banned target =? 0
         then Ret (errorReply 400 "User is not banned")
         else
           dbRun (updateBanned 0 (users_id target))
             (logModerationAction (users_id user) "unban_user" "user"
                (Some (users_id target)) (Some ("Unbanned user: " ++ name))
                (Ret (mkResponse 200
                        [("message",
                           JStr ("User " ++ name ++ " has been unbanned"))])))
     end))
    (Ret internalError).

(** [SELECT * FROM reports WHERE id = ?]; the id is what [parseInt] made of
    the path parameter, [None] for [NaN], which the store compares as NULL
    and so matches no row. *)
Definition selectReportById (id : option Z) (st : Store) : option ReportRow :=
  match id with
  | Some id => find (fun r => report_id r =? id) (reports st)
  | None => None
  end.

(** [UPDATE reports SET status = ? WHERE id = ?] *)
Definition setReportStatus (newStatus : string) (id : Z) (r : ReportRow)
  : ReportRow :=
  if report_id r =? id
  then mkReport (report_id r) (reporter_id r) (reported_item_id r)
         (reported_item_type r) (reason r) newStatus
  else r.

Definition updateReportStatus (newStatus : string) (id : option Z)
  (st : Store) : option Store :=
  match id with
  | Some id =>
      if forallb (fun r => checkReport (setReportStatus newStatus id r))
           (filter (fun r => report_id r =? id) (reports st))
      then Some (withReports st (map (setReportStatus newStatus id) (reports st))
                   (seq_reports st))
      else None
  | None => Some st
  end.

(** POST /api/mod/reports/:id/dismiss *)
Definition dismissReport (user : UserRow) (reportId : option Z)
  : Task Response :=
  tryCatch
    (DbGet (selectReportById reportId) (fun report =>
     match report with
     | None => Ret (errorReply 404 "Report not found")
     | Some report =>
         dbRun (updateReportStatus "dismissed" reportId)
           (logModerationAction (users_id user) "dismiss_report" "report"
              reportId
              (Some ("Dismissed report for " ++ reported_item_type report
                     ++ " " ++ numToString (reported_item_id report)))
              (Ret (mkResponse 200
                      [("message", JStr "Report dismissed successfully")])))
     end))
    (Ret internalError).

(** ** The vote ledger and its counter *)

(** +1 for an up vote, -1 for a down vote. *)
Definition voteWeight (v : VoteRow) : Z :=
  if (vote_type v =? "up")%string then 1
  else if (vote_type v =? "down")%string then -1
  else 0.

Definition onItem (itemType : string) (itemId : Z) (v : VoteRow) : bool :=
  (item_type v =? itemType)%string && (item_id v =? itemId).

(** The signed sum of the vote rows of one item. *)
Definition tally (vs : list VoteRow) (itemType : string) (itemId : Z) : Z :=
  fold_right Z.add 0 (map voteWeight (filter (onItem itemType itemId) vs)).

(** The [votes] column of the item's row. *)
Definition itemCounter (st : Store) (itemType : string) (itemId : Z)
  : option Z :=
  selectItemVotes (tableNameFor itemType) itemId st.

(** What the schema promises about [votes]: the primary key,
    [UNIQUE(user_id, item_id, item_type)] and the CHECK constraints. *)
Definition voteKey (v : VoteRow) : Z * Z * string :=
  (user_id v, item_id v, item_type v).

Record VotesOk (st : Store) : Prop := mkVotesOk {
  votes_pk : NoDup (map vote_id (votes st));
  votes_unique : NoDup (map voteKey (votes st));
  votes_check : forallb checkVote (votes st) = true
}.

(** A request to POST /api/votes, and a series of them served one after the
    other. *)
Record VoteRequest : Type := mkVoteRequest {
  voter : Principal;
  itemId : option Z;
  itemType : option string;
  voteType : option string
}.

Definition serveVote (st : Store) (rq : VoteRequest) : Store :=
  fst (run (castVote (voter rq) (itemId rq) (itemType rq) (voteType rq)) st).

Definition serveVotes (rqs : list VoteRequest) (st : Store) : Store :=
  fold_left serveVote rqs st.

(** What the schema promises about [reports]. *)
Definition reportKey (r : ReportRow) : Z * Z * string :=
  (reporter_id r, reported_item_id r, reported_item_type r).

Record ReportsOk (st : Store) : Prop := mkReportsOk {
  reports_pk : NoDup (map report_id (reports st));
  reports_unique : NoDup (map reportKey (reports st));
  reports_check : forallb checkReport (reports st) = true
}.

(** What the statement awaited by [decideVote] makes of [votes] and of its
    rowid sequence when the store accepts it, with the handler's locals
    [voteDelta] and [action] (lines 38-61 read as one function of the
    store). *)
Definition voteEffect (uid itemId : Z) (itemType voteType : string)
  (st : Store) : list VoteRow * Z * Z * string :=
  match selectVote uid itemId itemType st with
  | None =>
      let row :=
        mkVote (nextRowid (seq_votes st) (map vote_id (votes st)))
          uid itemId itemType voteType in
      ((votes st ++ [row])%list, vote_id row,
       if (voteType =? "up")%string then 1 else -1, "created")
  | Some ev =>
      if (vote_type ev =? voteType)%string
      then (filter (fun v => negb (vote_id v =? vote_id ev)) (votes st),
            seq_votes st,
            if (voteType =? "up")%string then -1 else 1, "removed")
      else (map (setVoteType voteType (vote_id ev)) (votes st),
            seq_votes st,
            if (voteType =? "up")%string then 2 else -2, "updated")
  end.

(** ** Requests in flight *)

(** A task that ends within [n] awaited statements, whatever the store
    answers. *)
Fixpoint within {A} (n : nat) (t : Task A) {struct t} : Prop :=
  match t with
  | Ret _ | Throw => True
  | DbGet q k =>
      match n with
      | O => False
      | S m => forall r, within m (k r)
      end
  | DbRun u k kerr =>
      match n with
      | O => False
      | S m => within m k /\ within m kerr
      end
  end.

(** The places where a vote request of user [uid] can stand between two
    awaited statements, each with the delta it still owes to the counter of
    the item ([itemType0], [itemId0]): a request owes its [voteDelta] from
    the moment its vote-row statement is done until its counter statement is
    done.  While the request stands before its vote-row statement, the
    [existingVote] it holds is the caller's row as the store has it. *)
Inductive InFlight (itemType0 : string) (itemId0 : Z) (uid : Z) (st : Store)
  : Task Response -> Z -> Prop :=
| flight_done (r : Response) :
    InFlight itemType0 itemId0 uid st (Ret r) 0
| flight_verify (i : Z) (ty vt : string) :
    includes ["post"; "comment"] ty = true ->
    includes ["up"; "down"] vt = true ->
    InFlight itemType0 itemId0 uid st
      (tryCatch (verifyItem uid i ty vt) (Ret internalError)) 0
| flight_find (i : Z) (ty vt : string) :
    includes ["post"; "comment"] ty = true ->
    includes ["up"; "down"] vt = true ->
    InFlight itemType0 itemId0 uid st
      (tryCatch (findVote uid i ty vt) (Ret internalError)) 0
| flight_decide (i : Z) (ty vt : string) :
    includes ["post"; "comment"] ty = true ->
    includes ["up"; "down"] vt = true ->
    InFlight itemType0 itemId0 uid st
      (tryCatch (decideVote uid i ty vt (selectVote uid i ty st))
         (Ret internalError)) 0
| flight_apply (i : Z) (ty : string) (d : Z) (act : string) :
    includes ["post"; "comment"] ty = true ->
    InFlight itemType0 itemId0 uid st
      (tryCatch (applyVoteDelta uid i ty d act) (Ret internalError))
      (if (ty =? itemType0)%string && (i =? itemId0) then d else 0)
| flight_counter (i : Z) (ty act : string) :
    InFlight itemType0 itemId0 uid st
      (tryCatch (readCounter uid i ty act) (Ret internalError)) 0
| flight_vote (i : Z) (ty act : string) (updatedItem : option Z) :
    InFlight itemType0 itemId0 uid st
      (tryCatch (readUserVote uid i ty act updatedItem) (Ret internalError)) 0.

(** The task of a vote request, and the pending deltas of a configuration. *)
Definition voteTask (rq : VoteRequest) : Task Response :=
  castVote (voter rq) (itemId rq) (itemType rq) (voteType rq).

Definition voterId (rq : VoteRequest) : Z := principal_id (voter rq).

Definition sumZ (l : list Z) : Z := fold_right Z.add 0 l.

(** ** Bulk requests *)

(** The ids of a bulk request that name a post of the store, each once: the
    resolved subset. *)
Definition existingPostIds (ids : list Z) (st : Store) : list Z :=
  nodup Z.eq_dec
    (filter (fun id => existsb (fun p => post_id p =? id) (posts st)) ids).

(** ** A small store to run the handlers on *)

Definition sampleStore : Store :=
  mkStore
    [mkUser 1 "ana" "user" 0; mkUser 2 "bo" "moderator" 1;
     mkUser 3 "cy" "admin" 0]
    [mkPost 1 "first" 1 1; mkPost 2 "second" 3 0]
    [mkComment 5 1 2 "hello" 0]
    [mkVote 1 2 1 "post" "up"]
    [mkReport 1 1 5 "comment" (Some "spam") "dismissed"]
    []
    1 1 0.

(** * Properties *)

(** Decide the comparisons between string literals in the goal. *)
Ltac string_tests :=
  repeat match goal with
  | |- context [String.eqb ?a ?b] =>
      let v := eval vm_compute in (String.eqb a b) in
      match v with
      | true => change (String.eqb a b) with true
      | false => change (String.eqb a b) with false
      end
  end;
  cbv iota.

(** ** Rowids *)

Lemma fold_max_ge (seq : Z) (ids : list Z) (x : Z) :
  In x ids -> x <= fold_right Z.max seq ids.
Proof.
  induction ids as [|y ids IH]; simpl; [tauto|].
  intros [->|H]; [lia|]. specialize (IH H). lia.
Qed.

Lemma nextRowid_fresh (seq : Z) (ids : list Z) : ~ In (nextRowid seq ids) ids.
Proof.
  intros H. apply (fold_max_ge seq) in H. unfold nextRowid in H. lia.
Qed.

(** ** Lists of rows keyed by a rowid *)

Section Keyed.
Context {Row : Type} (key : Row -> Z).

Lemma filter_other_key (id : Z) (l : list Row) :
  (forall r, In r l -> key r <> id) ->
  filter (fun r => negb (key r =? id)) l = l.
Proof.
  induction l as [|r l IH]; simpl; intros H; [reflexivity|].
  destruct (Z.eqb_spec (key r) id) as [E|E]; simpl.
  - exfalso. apply (H r); auto.
  - f_equal. apply IH. intros r' Hr'. apply H. auto.
Qed.

Lemma map_other_key (f : Row -> Row) (id : Z) (l : list Row) :
  (forall r, In r l -> key r <> id) ->
  map (fun r => if key r =? id then f r else r) l = l.
Proof.
  induction l as [|r l IH]; simpl; intros H; [reflexivity|].
  destruct (Z.eqb_spec (key r) id) as [E|E]; simpl.
  - exfalso. apply (H r); auto.
  - f_equal. apply IH. intros r' Hr'. apply H. auto.
Qed.

End Keyed.

(** In a table with a unique key, no other row carries the key of a row. *)
Lemma unique_key_elsewhere {Row K : Type} (key : Row -> K)
  (l1 l2 : list Row) (r : Row) :
  NoDup (map key (l1 ++ r :: l2)) ->
  forall r', In r' (l1 ++ l2) -> key r' <> key r.
Proof.
  intros Hnd r' Hr' E. rewrite map_app in Hnd. simpl in Hnd.
  apply NoDup_remove_2 in Hnd. apply Hnd.
  rewrite <- map_app, <- E. apply in_map. exact Hr'.
Qed.

Lemma unique_key_remove {Row K : Type} (key : Row -> K)
  (l1 l2 : list Row) (r : Row) :
  NoDup (map key (l1 ++ r :: l2)) -> NoDup (map key (l1 ++ l2)).
Proof.
  rewrite !map_app. simpl. apply NoDup_remove_1.
Qed.

Lemma find_app_none {A} (p : A -> bool) (l1 l2 : list A) :
  find p l1 = None -> find p (l1 ++ l2) = find p l2.
Proof.
  induction l1 as [|x l1 IH]; simpl; [reflexivity|].
  destruct (p x); [discriminate|exact IH].
Qed.

Lemma find_none_existsb {A} (p : A -> bool) (l : list A) :
  find p l = None -> existsb p l = false.
Proof.
  induction l as [|x l IH]; simpl; [reflexivity|].
  destruct (p x); [discriminate|exact IH].
Qed.

Lemma find_none_iff {A} (p : A -> bool) (l : list A) :
  find p l = None <-> (forall x, In x l -> p x = false).
Proof.
  split.
  - intros H x Hx. exact (find_none p l H x Hx).
  - induction l as [|x l IH]; simpl; intros H; [reflexivity|].
    rewrite (H x (or_introl eq_refl)). apply IH. intros y Hy. apply H. auto.
Qed.

(** ** The tally *)

Lemma tally_app (l1 l2 : list VoteRow) (ty : string) (i : Z) :
  tally (l1 ++ l2) ty i = tally l1 ty i + tally l2 ty i.
Proof.
  unfold tally. induction l1 as [|v l1 IH]; simpl; [reflexivity|].
  destruct (onItem ty i v); simpl; lia.
Qed.

Lemma tally_cons (v : VoteRow) (l : list VoteRow) (ty : string) (i : Z) :
  tally (v :: l) ty i =
  (if onItem ty i v then voteWeight v else 0) + tally l ty i.
Proof. unfold tally. simpl. destruct (onItem ty i v); reflexivity. Qed.

(** ** Validation *)

Lemma includes_item_type (ty : string) :
  includes ["post"; "comment"] ty = true <-> ty = "post" \/ ty = "comment".
Proof.
  unfold includes. simpl. rewrite !orb_true_iff, !String.eqb_eq.
  intuition discriminate.
Qed.

Lemma includes_vote_type (vt : string) :
  includes ["up"; "down"] vt = true <-> vt = "up" \/ vt = "down".
Proof.
  unfold includes. simpl. rewrite !orb_true_iff, !String.eqb_eq.
  intuition discriminate.
Qed.

Lemma truthy_item_type (ty : string) :
  includes ["post"; "comment"] ty = true -> truthyStr (Some ty) = Some ty.
Proof. rewrite includes_item_type. intros [->| ->]; reflexivity. Qed.

Lemma truthy_vote_type (vt : string) :
  includes ["up"; "down"] vt = true -> truthyStr (Some vt) = Some vt.
Proof. rewrite includes_vote_type. intros [->| ->]; reflexivity. Qed.

Lemma truthy_id (i : Z) : i <> 0 -> truthyNum (Some i) = Some i.
Proof. intros H. simpl. destruct (Z.eqb_spec i 0); [contradiction|reflexivity]. Qed.

Lemma tableNameFor_inj (ty ty' : string) :
  includes ["post"; "comment"] ty = true ->
  includes ["post"; "comment"] ty' = true ->
  tableNameFor ty = tableNameFor ty' -> ty = ty'.
Proof.
  rewrite !includes_item_type.
  intros [->| ->] [->| ->]; cbv; congruence.
Qed.

(** ** The item tables *)

Lemma find_post_add (d i j : Z) (ps : list PostRow) :
  find (fun p => post_id p =? i) (map (addPostVotes d j) ps) =
  option_map (addPostVotes d j) (find (fun p => post_id p =? i) ps).
Proof.
  induction ps as [|p ps IH]; simpl; [reflexivity|].
  replace (post_id (addPostVotes d j p)) with (post_id p)
    by (unfold addPostVotes; destruct (post_id p =? j); reflexivity).
  destruct (post_id p =? i); [reflexivity|exact IH].
Qed.

Lemma find_comment_add (d i j : Z) (cs : list CommentRow) :
  find (fun c => comment_id c =? i) (map (addCommentVotes d j) cs) =
  option_map (addCommentVotes d j) (find (fun c => comment_id c =? i) cs).
Proof.
  induction cs as [|c cs IH]; simpl; [reflexivity|].
  replace (comment_id (addCommentVotes d j c)) with (comment_id c)
    by (unfold addCommentVotes; destruct (comment_id c =? j); reflexivity).
  destruct (comment_id c =? i); [reflexivity|exact IH].
Qed.

Lemma selectItemVotes_add_same (tn : string) (d i : Z) (st : Store) :
  selectItemVotes tn i (addVotesTo tn d i st) =
  option_map (fun c => c + d) (selectItemVotes tn i st).
Proof.
  unfold selectItemVotes, addVotesTo.
  destruct (tn =? "posts")%string; simpl.
  - rewrite find_post_add.
    destruct (find (fun p => post_id p =? i) (posts st)) as [p|] eqn:E;
      [|reflexivity].
    apply find_some in E. destruct E as [_ E]. simpl.
    unfold addPostVotes. rewrite E. reflexivity.
  - rewrite find_comment_add.
    destruct (find (fun c => comment_id c =? i) (comments st)) as [c|] eqn:E;
      [|reflexivity].
    apply find_some in E. destruct E as [_ E]. simpl.
    unfold addCommentVotes. rewrite E. reflexivity.
Qed.

Lemma selectItemVotes_add_other (tn tn' : string) (d i j : Z) (st : Store) :
  tn <> tn' \/ i <> j ->
  (tn = "posts" \/ tn = "comments") -> (tn' = "posts" \/ tn' = "comments") ->
  selectItemVotes tn i (addVotesTo tn' d j st) = selectItemVotes tn i st.
Proof.
  intros Hne Htn Htn'. unfold selectItemVotes, addVotesTo.
  destruct Htn as [-> | ->], Htn' as [-> | ->]; simpl; try reflexivity;
    destruct Hne as [Hne|Hne]; try congruence.
  - rewrite find_post_add.
    destruct (find (fun p => post_id p =? i) (posts st)) as [p|] eqn:E;
      [|reflexivity].
    apply find_some in E. destruct E as [_ E]. simpl.
    unfold addPostVotes.
    destruct (Z.eqb_spec (post_id p) j); [|reflexivity].
    apply Z.eqb_eq in E. congruence.
  - rewrite find_comment_add.
    destruct (find (fun c => comment_id c =? i) (comments st)) as [c|] eqn:E;
      [|reflexivity].
    apply find_some in E. destruct E as [_ E]. simpl.
    unfold addCommentVotes.
    destruct (Z.eqb_spec (comment_id c) j); [|reflexivity].
    apply Z.eqb_eq in E. congruence.
Qed.

Lemma tableNameFor_cases (ty : string) :
  tableNameFor ty = "posts" \/ tableNameFor ty = "comments".
Proof. unfold tableNameFor. destruct (ty =? "post")%string; auto. Qed.

Lemma selectItemVotes_withVotes (tn : string) (i : Z) (st : Store)
  (vs : list VoteRow) (seq : Z) :
  selectItemVotes tn i (withVotes st vs seq) = selectItemVotes tn i st.
Proof. reflexivity. Qed.

Lemma selectItemId_of_votes (tn : string) (i c : Z) (st : Store) :
  selectItemVotes tn i st = Some c -> selectItemId tn i st = Some i.
Proof.
  unfold selectItemVotes, selectItemId.
  destruct (tn =? "posts")%string.
  - destruct (find (fun p => post_id p =? i) (posts st)) as [p|] eqn:E;
      [|discriminate].
    apply find_some in E. destruct E as [_ E]. apply Z.eqb_eq in E.
    intros _. simpl. congruence.
  - destruct (find (fun p => comment_id p =? i) (comments st)) as [p|] eqn:E;
      [|discriminate].
    apply find_some in E. destruct E as [_ E]. apply Z.eqb_eq in E.
    intros _. simpl. congruence.
Qed.

Lemma selectItemVotes_of_id (tn : string) (i j : Z) (st : Store) :
  selectItemId tn i st = Some j -> exists c, selectItemVotes tn i st = Some c.
Proof.
  unfold selectItemVotes, selectItemId.
  destruct (tn =? "posts")%string.
  - destruct (find (fun p => post_id p =? i) (posts st)); [|discriminate].
    simpl. eauto.
  - destruct (find (fun p => comment_id p =? i) (comments st)); [|discriminate].
    simpl. eauto.
Qed.

(** ** The vote rows *)

Lemma voteBy_spec (uid i : Z) (ty : string) (v : VoteRow) :
  voteBy uid i ty v = true <-> voteKey v = (uid, i, ty).
Proof.
  unfold voteBy, voteKey.
  rewrite !andb_true_iff, !Z.eqb_eq, String.eqb_eq.
  split; [intros [[-> ->] ->]; reflexivity|].
  intros E. inversion E. auto.
Qed.

Lemma checkVote_set (vt : string) (id : Z) (v : VoteRow) :
  includes ["up"; "down"] vt = true ->
  checkVote v = true -> checkVote (setVoteType vt id v) = true.
Proof.
  intros Hvt Hv. unfold setVoteType. destruct (vote_id v =? id); [|exact Hv].
  unfold checkVote in *. cbn [item_type vote_type].
  apply andb_true_iff in Hv as [Hv _].
  rewrite Hv, Hvt. reflexivity.
Qed.

Lemma updateVoteType_accepts (vt : string) (id : Z) (st : Store) :
  includes ["up"; "down"] vt = true ->
  forallb checkVote (votes st) = true ->
  updateVoteType vt id st =
  Some (withVotes st (map (setVoteType vt id) (votes st)) (seq_votes st)).
Proof.
  intros Hvt Hck. unfold updateVoteType.
  replace (forallb _ _) with true; [reflexivity|].
  symmetry. apply forallb_forall. intros v Hv.
  apply filter_In in Hv as [Hv _].
  apply checkVote_set; [exact Hvt|].
  rewrite forallb_forall in Hck. auto.
Qed.

Lemma insertVote_accepts (uid i : Z) (ty vt : string) (st : Store) :
  includes ["post"; "comment"] ty = true ->
  includes ["up"; "down"] vt = true ->
  selectVote uid i ty st = None ->
  insertVote uid i ty vt st =
  let row := mkVote (nextRowid (seq_votes st) (map vote_id (votes st)))
               uid i ty vt in
  Some (withVotes st (votes st ++ [row])%list (vote_id row)).
Proof.
  intros Hty Hvt Hnone. unfold insertVote, checkVote.
  cbn [item_type vote_type]. rewrite Hty, Hvt. unfold selectVote in Hnone.
  rewrite (find_none_existsb _ _ Hnone). reflexivity.
Qed.

Lemma votes_addVotesTo (tn : string) (d i : Z) (st : Store) :
  votes (addVotesTo tn d i st) = votes st.
Proof. unfold addVotesTo. destruct (tn =? "posts")%string; reflexivity. Qed.

Lemma selectVote_addVotesTo (uid j : Z) (ty tn : string) (d i : Z)
  (st : Store) :
  selectVote uid j ty (addVotesTo tn d i st) = selectVote uid j ty st.
Proof. unfold selectVote. rewrite votes_addVotesTo. reflexivity. Qed.

(** The sequential meaning of a well-formed vote on an existing item: the
    vote-row statement has the effect [voteEffect] describes, then the
    counter statement applies the delta and the answer reports what the two
    reads find. *)
Lemma castVote_run_valid (user : Principal) (i : Z) (ty vt : string)
  (st : Store) (c : Z) :
  i <> 0 ->
  includes ["post"; "comment"] ty = true ->
  includes ["up"; "down"] vt = true ->
  forallb checkVote (votes st) = true ->
  itemCounter st ty i = Some c ->
  run (castVote user (Some i) (Some ty) (Some vt)) st =
  let uid := principal_id user in
  let '(vs, seq, delta, act) := voteEffect uid i ty vt st in
  (addVotesTo (tableNameFor ty) delta i (withVotes st vs seq),
   Some (mkResponse 200
           [("message", JStr ("Vote " ++ act ++ " successfully"));
            ("votes", JNum (c + delta));
            ("userVote",
              match find (voteBy uid i ty) vs with
              | Some v => JStr (vote_type v)
              | None => JNull
              end)])).
Proof.
  intros Hi Hty Hvt Hck Hc. unfold castVote, voteEffect.
  rewrite (truthy_id _ Hi), (truthy_item_type _ Hty), (truthy_vote_type _ Hvt).
  rewrite Hty, Hvt. cbn [negb]. cbv iota.
  unfold verifyItem, findVote. cbn [tryCatch run].
  unfold itemCounter in Hc.
  rewrite (selectItemId_of_votes _ _ _ _ Hc). cbn [tryCatch run].
  unfold decideVote, applyVoteDelta, readCounter, readUserVote.
  destruct (selectVote (principal_id user) i ty st) as [ev|] eqn:Eev.
  - destruct (vote_type ev =? vt)%string; cbn [tryCatch run dbRun].
    + cbn [deleteVote addVotes].
      rewrite selectItemVotes_add_same, selectItemVotes_withVotes, Hc.
      rewrite selectVote_addVotesTo. reflexivity.
    + rewrite (updateVoteType_accepts _ _ _ Hvt Hck). cbn [addVotes].
      rewrite selectItemVotes_add_same, selectItemVotes_withVotes, Hc.
      rewrite selectVote_addVotesTo. reflexivity.
  - cbn [tryCatch run dbRun].
    rewrite (insertVote_accepts _ _ _ _ _ Hty Hvt Eev). cbv zeta.
    cbn [addVotes].
    rewrite selectItemVotes_add_same, selectItemVotes_withVotes, Hc.
    rewrite selectVote_addVotesTo. reflexivity.
Qed.

Lemma voteBy_false (uid i : Z) (ty : string) (v : VoteRow) :
  voteKey v <> (uid, i, ty) -> voteBy uid i ty v = false.
Proof.
  intros H. destruct (voteBy uid i ty v) eqn:E; [|reflexivity].
  apply voteBy_spec in E. contradiction.
Qed.

Lemma onItem_of_key (uid i i' : Z) (ty ty' : string) (v : VoteRow) :
  voteKey v = (uid, i, ty) ->
  onItem ty' i' v = ((ty =? ty')%string && (i =? i')).
Proof. unfold voteKey, onItem. intros E. inversion E. reflexivity. Qed.

(** The row [selectVote] finds, in a table that keeps the schema's promises:
    the table splits around it, deleting by its id removes it alone, updating
    by its id rewrites it alone, and no other row belongs to the same voter
    and item. *)
Lemma found_vote_alone (uid i : Z) (ty : string) (st : Store) (ev : VoteRow) :
  VotesOk st ->
  selectVote uid i ty st = Some ev ->
  exists l1 l2,
    votes st = (l1 ++ ev :: l2)%list
    /\ voteKey ev = (uid, i, ty)
    /\ filter (fun v => negb (vote_id v =? vote_id ev)) (votes st)
       = (l1 ++ l2)%list
    /\ (forall vt,
          map (setVoteType vt (vote_id ev)) (votes st)
          = (l1 ++ mkVote (vote_id ev) uid i ty vt :: l2)%list)
    /\ find (voteBy uid i ty) l1 = None
    /\ find (voteBy uid i ty) l2 = None.
Proof.
  intros [Hpk Huq _] Hsel. unfold selectVote in Hsel.
  apply find_some in Hsel. destruct Hsel as [Hin Hby].
  apply voteBy_spec in Hby.
  apply in_split in Hin. destruct Hin as (l1 & l2 & E).
  rewrite E in Hpk, Huq.
  pose proof (unique_key_elsewhere vote_id l1 l2 ev Hpk) as Hid.
  pose proof (unique_key_elsewhere voteKey l1 l2 ev Huq) as Hkey.
  exists l1, l2. rewrite E. repeat split.
  - exact Hby.
  - rewrite filter_app. simpl. rewrite Z.eqb_refl. simpl.
    rewrite !(filter_other_key vote_id); [reflexivity| |];
      intros r Hr; apply Hid; apply in_or_app; auto.
  - intros vt. rewrite map_app. simpl. unfold setVoteType at 2.
    rewrite Z.eqb_refl.
    unfold voteKey in Hby. inversion Hby. subst.
    unfold setVoteType.
    rewrite !(map_other_key vote_id); [reflexivity| |];
      intros r Hr; apply Hid; apply in_or_app; auto.
  - apply find_none_iff. intros v Hv. apply voteBy_false. rewrite <- Hby.
    apply Hkey. apply in_or_app. auto.
  - apply find_none_iff. intros v Hv. apply voteBy_false. rewrite <- Hby.
    apply Hkey. apply in_or_app. auto.
Qed.

Lemma checkVote_weight (v : VoteRow) :
  checkVote v = true ->
  voteWeight v = if (vote_type v =? "up")%string then 1 else -1.
Proof.
  unfold checkVote, voteWeight. intros H. apply andb_true_iff in H as [_ H].
  apply includes_vote_type in H. destruct H as [-> | ->]; reflexivity.
Qed.

Lemma forallb_app_inv {A} (p : A -> bool) (l1 l2 : list A) :
  forallb p (l1 ++ l2) = true -> forallb p l1 = true /\ forallb p l2 = true.
Proof. rewrite forallb_app. apply andb_true_iff. Qed.

Lemma option_map_add_0 (o : option Z) : option_map (fun c => c + 0) o = o.
Proof. destruct o; simpl; [f_equal; lia|reflexivity]. Qed.

Lemma itemCounter_after (ty ty' : string) (i i' d : Z) (st : Store)
  (vs : list VoteRow) (seq : Z) :
  includes ["post"; "comment"] ty = true ->
  includes ["post"; "comment"] ty' = true ->
  itemCounter (addVotesTo (tableNameFor ty) d i (withVotes st vs seq)) ty' i' =
  option_map
    (fun c => c + (if (ty =? ty')%string && (i =? i') then d else 0))
    (itemCounter st ty' i').
Proof.
  intros Hty Hty'. unfold itemCounter.
  destruct (String.eqb_spec ty ty') as [<-|Hne]; simpl.
  - destruct (Z.eqb_spec i i') as [<-|Hni].
    + rewrite selectItemVotes_add_same. reflexivity.
    + rewrite selectItemVotes_add_other, selectItemVotes_withVotes;
        auto using tableNameFor_cases.
      symmetry. apply option_map_add_0.
  - rewrite selectItemVotes_add_other, selectItemVotes_withVotes;
      auto using tableNameFor_cases.
    + symmetry. apply option_map_add_0.
    + left. intros E. apply Hne. symmetry.
      apply tableNameFor_inj; auto.
Qed.

Lemma nodup_snoc {A} (l : list A) (x : A) :
  NoDup l -> ~ In x l -> NoDup (l ++ [x]).
Proof.
  intros Hl Hx. apply NoDup_app; [exact Hl|repeat constructor; tauto|].
  intros a Ha [<-|[]]. contradiction.
Qed.

Lemma find_skip {A} (p : A -> bool) (l1 l2 : list A) (x : A) :
  p x = false -> find p (l1 ++ x :: l2) = find p (l1 ++ l2).
Proof.
  intros Hx. induction l1 as [|y l1 IH]; cbn [app find].
  - rewrite Hx. reflexivity.
  - destruct (p y); [reflexivity|exact IH].
Qed.

Lemma voteBy_other_user (uid uid' i j : Z) (ty ty' : string) (v : VoteRow) :
  uid' <> uid -> voteKey v = (uid, i, ty) -> voteBy uid' j ty' v = false.
Proof.
  intros Hne Hkey. apply voteBy_false. rewrite Hkey. intros E.
  inversion E. congruence.
Qed.

(** The vote-row statement keeps the schema's promises, moves the tally of
    the item voted on by the handler's delta and no other tally, and leaves
    the rows of every other user where a lookup finds them. *)
Lemma voteEffect_sound (uid i : Z) (ty vt : string) (st : Store)
  (vs : list VoteRow) (seq d : Z) (act : string) :
  includes ["post"; "comment"] ty = true ->
  includes ["up"; "down"] vt = true ->
  VotesOk st ->
  voteEffect uid i ty vt st = (vs, seq, d, act) ->
  VotesOk (withVotes st vs seq)
  /\ (forall ty' i',
        tally vs ty' i' =
        tally (votes st) ty' i'
        + if (ty =? ty')%string && (i =? i') then d else 0)
  /\ (forall uid' j ty',
        uid' <> uid ->
        find (voteBy uid' j ty') vs = find (voteBy uid' j ty') (votes st)).
Proof.
  intros Hty Hvt Hok. unfold voteEffect.
  destruct (selectVote uid i ty st) as [ev|] eqn:Esel.
  - destruct (found_vote_alone _ _ _ _ _ Hok Esel)
      as (l1 & l2 & Evs & Hkey & Hdel & Hupd & _ & _).
    destruct Hok as [Hpk Huq Hck]. rewrite Evs in Hpk, Huq, Hck.
    apply forallb_app_inv in Hck as [Hck1 Hck2]. cbn [forallb] in Hck2.
    apply andb_true_iff in Hck2 as [Hckev Hck2].
    destruct (String.eqb_spec (vote_type ev) vt) as [Esame|Ediff];
      intros E; inversion E; subst vs seq d act; clear E.
    + (* toggle off *)
      rewrite Hdel. split; [|split].
      * constructor; cbn [votes withVotes].
        -- exact (unique_key_remove vote_id _ _ _ Hpk).
        -- exact (unique_key_remove voteKey _ _ _ Huq).
        -- rewrite forallb_app, Hck1, Hck2. reflexivity.
      * intros ty' i'. rewrite Evs.
        rewrite !tally_app, tally_cons, (onItem_of_key _ _ _ _ _ _ Hkey).
        rewrite (checkVote_weight _ Hckev), Esame.
        destruct ((ty =? ty')%string && (i =? i')); [|lia].
        destruct (vt =? "up")%string; lia.
      * intros uid' j ty' Hne. rewrite Evs. symmetry. apply find_skip.
        exact (voteBy_other_user _ _ _ _ _ _ _ Hne Hkey).
    + (* switch *)
      rewrite Hupd. split; [|split].
      * constructor; cbn [votes withVotes].
        -- rewrite map_app in *. exact Hpk.
        -- rewrite map_app in *. cbn [map] in *.
           replace (voteKey (mkVote (vote_id ev) uid i ty vt))
             with (voteKey ev) by (rewrite Hkey; reflexivity).
           exact Huq.
        -- rewrite forallb_app, Hck1. cbn [forallb]. rewrite Hck2.
           unfold checkVote. cbn [item_type vote_type]. rewrite Hty, Hvt.
           reflexivity.
      * intros ty' i'. rewrite Evs.
        rewrite !tally_app, !tally_cons, (onItem_of_key _ _ _ _ _ _ Hkey).
        rewrite (onItem_of_key uid i i' ty ty') by reflexivity.
        rewrite (checkVote_weight _ Hckev).
        unfold voteWeight at 1. cbn [vote_type].
        destruct ((ty =? ty')%string && (i =? i')); [|lia].
        unfold checkVote in Hckev. apply andb_true_iff in Hckev as [_ Hev].
        apply includes_vote_type in Hev. apply includes_vote_type in Hvt.
        destruct Hev as [Hev|Hev], Hvt as [-> | ->]; rewrite Hev in *;
          string_tests; try lia; congruence.
      * intros uid' j ty' Hne. rewrite Evs.
        rewrite !find_skip; [reflexivity| |].
        -- exact (voteBy_other_user _ _ _ _ _ _ _ Hne Hkey).
        -- apply (voteBy_other_user uid uid' i j ty ty'); [exact Hne|].
           reflexivity.
  - (* first vote *)
    intros E; inversion E; subst vs seq d act; clear E.
    destruct Hok as [Hpk Huq Hck]. split; [|split].
    + constructor; cbn [votes withVotes].
      * rewrite map_app. cbn [map vote_id]. apply nodup_snoc; [exact Hpk|].
        apply nextRowid_fresh.
      * rewrite map_app. cbn [map]. apply nodup_snoc; [exact Huq|].
        intros Hin. apply in_map_iff in Hin as (v & Ev & Hv).
        unfold selectVote in Esel.
        pose proof (find_none _ _ Esel v Hv) as Hby.
        assert (voteBy uid i ty v = true) as Hby'.
        { apply voteBy_spec. exact Ev. }
        congruence.
      * rewrite forallb_app, Hck. cbn [forallb]. unfold checkVote.
        cbn [item_type vote_type]. rewrite Hty, Hvt. reflexivity.
    + intros ty' i'. rewrite tally_app, tally_cons.
      rewrite (onItem_of_key uid i i' ty ty') by reflexivity.
      unfold voteWeight. cbn [vote_type].
      destruct ((ty =? ty')%string && (i =? i'));
        [|unfold tally; cbn [filter map fold_right]; lia].
      apply includes_vote_type in Hvt. destruct Hvt as [-> | ->];
        string_tests; unfold tally; cbn [filter map fold_right]; lia.
    + intros uid' j ty' Hne.
      rewrite find_skip, app_nil_r; [reflexivity|].
      apply (voteBy_other_user uid uid' i j ty ty'); [exact Hne|reflexivity].
Qed.

Lemma VotesOk_addVotesTo (tn : string) (d i : Z) (st : Store) :
  VotesOk st -> VotesOk (addVotesTo tn d i st).
Proof.
  intros [Hpk Huq Hck]. constructor; rewrite votes_addVotesTo; assumption.
Qed.

(** One well-formed vote on an existing item keeps the schema's promises and
    moves the counter of every item by exactly what it moves that item's
    tally. *)
Lemma castVote_ledger_step (user : Principal) (i : Z) (ty vt : string)
  (st : Store) (c : Z) :
  i <> 0 ->
  includes ["post"; "comment"] ty = true ->
  includes ["up"; "down"] vt = true ->
  VotesOk st ->
  itemCounter st ty i = Some c ->
  let st' := fst (run (castVote user (Some i) (Some ty) (Some vt)) st) in
  VotesOk st'
  /\ forall ty' i',
       includes ["post"; "comment"] ty' = true ->
       exists d,
         tally (votes st') ty' i' = tally (votes st) ty' i' + d
         /\ itemCounter st' ty' i' =
            option_map (fun c => c + d) (itemCounter st ty' i').
Proof.
  intros Hi Hty Hvt Hok Hc.
  rewrite (castVote_run_valid user i ty vt st c Hi Hty Hvt (votes_check _ Hok) Hc).
  cbv zeta.
  destruct (voteEffect (principal_id user) i ty vt st)
    as [[[vs seq] d] act] eqn:Eeff.
  destruct (voteEffect_sound _ _ _ _ _ _ _ _ _ Hty Hvt Hok Eeff)
    as (Hok' & Htally & _).
  cbn [fst]. split.
  - apply VotesOk_addVotesTo. exact Hok'.
  - intros ty' i' Hty'. eexists. split.
    + rewrite votes_addVotesTo. cbn [votes withVotes]. apply Htally.
    + apply itemCounter_after; assumption.
Qed.

Lemma truthyNum_some (v : option Z) (z : Z) :
  truthyNum v = Some z -> v = Some z /\ z <> 0.
Proof.
  destruct v as [x|]; simpl; [|discriminate].
  destruct (Z.eqb_spec x 0); [discriminate|].
  intros E. inversion E. subst. auto.
Qed.

Lemma truthyStr_some (v : option string) (s : string) :
  truthyStr v = Some s -> v = Some s.
Proof.
  destruct v as [x|]; simpl; [|discriminate].
  destruct (x =? "")%string; [discriminate|].
  intros E. inversion E. reflexivity.
Qed.

(** A vote request either leaves the store as it is (it is turned down) or
    is a well-formed vote on an existing item. *)
Lemma castVote_store_cases (user : Principal) (a : option Z)
  (b c : option string) (st : Store) :
  fst (run (castVote user a b c) st) = st
  \/ exists i ty vt c0,
       a = Some i /\ b = Some ty /\ c = Some vt /\ i <> 0
       /\ includes ["post"; "comment"] ty = true
       /\ includes ["up"; "down"] vt = true
       /\ itemCounter st ty i = Some c0.
Proof.
  unfold castVote.
  destruct (truthyNum a) as [i|] eqn:Ea; [|left; reflexivity].
  destruct (truthyStr b) as [ty|] eqn:Eb; [|left; reflexivity].
  destruct (truthyStr c) as [vt|] eqn:Ec; [|left; reflexivity].
  destruct (includes ["post"; "comment"] ty) eqn:Hty; [|left; reflexivity].
  destruct (includes ["up"; "down"] vt) eqn:Hvt; [|left; reflexivity].
  cbn [negb]. cbv iota. unfold verifyItem. cbn [tryCatch run].
  destruct (selectItemId (tableNameFor ty) i st) as [j|] eqn:Ei;
    [|left; reflexivity].
  right. apply truthyNum_some in Ea as [-> Hi].
  apply truthyStr_some in Eb as ->. apply truthyStr_some in Ec as ->.
  destruct (selectItemVotes_of_id _ _ _ _ Ei) as [c0 Hc0].
  exists i, ty, vt, c0. auto 10.
Qed.

Lemma serveVote_keeps_ledger (st : Store) (rq : VoteRequest)
  (ty : string) (i : Z) :
  VotesOk st ->
  includes ["post"; "comment"] ty = true ->
  itemCounter st ty i = Some (tally (votes st) ty i) ->
  VotesOk (serveVote st rq)
  /\ itemCounter (serveVote st rq) ty i =
     Some (tally (votes (serveVote st rq)) ty i).
Proof.
  intros Hok Hty Hsync. unfold serveVote.
  destruct (castVote_store_cases (voter rq) (itemId rq) (itemType rq)
              (voteType rq) st)
    as [-> | (j & ty' & vt & c0 & -> & -> & -> & Hj & Hty' & Hvt & Hc0)];
    [auto|].
  destruct (castVote_ledger_step (voter rq) j ty' vt st c0 Hj Hty' Hvt Hok Hc0)
    as [Hok' Hmove].
  split; [exact Hok'|].
  destruct (Hmove ty i Hty) as (d & Htally & Hcounter).
  rewrite Hcounter, Htally, Hsync. reflexivity.
Qed.

(** C1. A store that keeps the schema's promises about [votes] and in which
    the counter of an item (a post or a comment) equals the signed sum of
    the item's vote rows is served any series of vote requests, by any
    users, on any items: afterwards the counter of the item again equals the
    signed sum of its current vote rows, +1 for each up vote and -1 for each
    down vote. *)
Theorem votes_counter_invariant (rqs : list VoteRequest) (st : Store)
  (ty : string) (i : Z) :
  VotesOk st ->
  includes ["post"; "comment"] ty = true ->
  itemCounter st ty i = Some (tally (votes st) ty i) ->
  itemCounter (serveVotes rqs st) ty i =
  Some (tally (votes (serveVotes rqs st)) ty i).
Proof.
  revert st. unfold serveVotes.
  induction rqs as [|rq rqs IH]; intros st Hok Hty Hsync; [exact Hsync|].
  cbn [fold_left].
  destruct (serveVote_keeps_ledger st rq ty i Hok Hty Hsync) as [Hok' Hsync'].
  apply IH; assumption.
Qed.

Lemma sampleStore_votes_ok : VotesOk sampleStore.
Proof.
  constructor; simpl; try reflexivity;
    (constructor; [simpl; tauto|constructor]).
Defined.

Lemma votes_counter_invariant_witness :
  let rqs :=
    [mkVoteRequest (mkPrincipal 1 "ana") (Some 1) (Some "post") (Some "up");
     mkVoteRequest (mkPrincipal 3 "cy") (Some 1) (Some "post") (Some "down");
     mkVoteRequest (mkPrincipal 1 "ana") (Some 1) (Some "post") (Some "down");
     mkVoteRequest (mkPrincipal 1 "ana") (Some 1) (Some "post") (Some "down")] in
  itemCounter (serveVotes rqs sampleStore) "post" 1 =
  Some (tally (votes (serveVotes rqs sampleStore)) "post" 1).
Proof.
  intros rqs.
  apply (votes_counter_invariant rqs sampleStore "post" 1).
  - exact sampleStore_votes_ok.
  - reflexivity.
  - reflexivity.
Defined.

(** C2. The three cases of a well-formed vote on an existing item.  No vote
    of the caller on the item: a row is appended for it, the counter moves by
    +1 for up and -1 for down, the action is [created].  A vote of the same
    type: that row, and no other, is deleted, the counter moves by -1 if the
    removed vote was up and +1 otherwise, the action is [removed].  A vote of
    the other type: the type of that row, and of no other, is rewritten, the
    counter moves by +2 if the new type is up and -2 otherwise, the action is
    [updated].  The action is what the message of the answer spells out. *)
Theorem castVote_three_cases (user : Principal) (i : Z) (ty vt : string)
  (st : Store) (c : Z) :
  i <> 0 ->
  includes ["post"; "comment"] ty = true ->
  includes ["up"; "down"] vt = true ->
  VotesOk st ->
  itemCounter st ty i = Some c ->
  let uid := principal_id user in
  let st' := fst (run (castVote user (Some i) (Some ty) (Some vt)) st) in
  let answer := snd (run (castVote user (Some i) (Some ty) (Some vt)) st) in
  let message := option_map (fun r => field "message" (body r)) answer in
  match selectVote uid i ty st with
  | None =>
      votes st' =
        (votes st
         ++ [mkVote (nextRowid (seq_votes st) (map vote_id (votes st)))
               uid i ty vt])%list
      /\ itemCounter st' ty i =
         Some (c + if (vt =? "up")%string then 1 else -1)
      /\ message = Some (Some (JStr "Vote created successfully"))
  | Some ev =>
      exists l1 l2,
        votes st = (l1 ++ ev :: l2)%list
        /\ if (vote_type ev =? vt)%string
           then
             votes st' = (l1 ++ l2)%list
             /\ itemCounter st' ty i =
                Some (c + if (vote_type ev =? "up")%string then -1 else 1)
             /\ message = Some (Some (JStr "Vote removed successfully"))
           else
             votes st' =
               (l1 ++ mkVote (vote_id ev) (user_id ev) (item_id ev)
                        (item_type ev) vt :: l2)%list
             /\ itemCounter st' ty i =
                Some (c + if (vt =? "up")%string then 2 else -2)
             /\ message = Some (Some (JStr "Vote updated successfully"))
  end.
Proof.
  intros Hi Hty Hvt Hok Hc uid st' answer message.
  subst st' answer message.
  rewrite (castVote_run_valid user i ty vt st c Hi Hty Hvt
             (votes_check _ Hok) Hc).
  cbv zeta. unfold voteEffect. fold uid.
  destruct (selectVote uid i ty st) as [ev|] eqn:Esel.
  - destruct (found_vote_alone _ _ _ _ _ Hok Esel)
      as (l1 & l2 & Evs & Hkey & Hdel & Hupd & _ & _).
    exists l1, l2. split; [exact Evs|].
    destruct (String.eqb_spec (vote_type ev) vt) as [Esame|Ediff];
      cbn [fst snd option_map body field]; string_tests;
      rewrite votes_addVotesTo, itemCounter_after by assumption;
      rewrite String.eqb_refl, Z.eqb_refl; cbn [andb votes withVotes];
      rewrite Hc; cbn [option_map].
    + rewrite Hdel, Esame. auto.
    + rewrite Hupd. unfold voteKey in Hkey. inversion Hkey. auto.
  - cbn [fst snd option_map body field]; string_tests.
    rewrite votes_addVotesTo, itemCounter_after by assumption.
    rewrite String.eqb_refl, Z.eqb_refl; cbn [andb votes withVotes].
    rewrite Hc. auto.
Qed.

Lemma castVote_three_cases_witness :
  let user := mkPrincipal 2 "bo" in
  let st' :=
    fst (run (castVote user (Some 1) (Some "post") (Some "down")) sampleStore) in
  selectVote 2 1 "post" sampleStore = Some (mkVote 1 2 1 "post" "up")
  /\ exists l1 l2,
       votes sampleStore = (l1 ++ mkVote 1 2 1 "post" "up" :: l2)%list
       /\ votes st' = (l1 ++ mkVote 1 2 1 "post" "down" :: l2)%list
       /\ itemCounter st' "post" 1 = Some (1 + -2).
Proof.
  split; [reflexivity|].
  pose proof (castVote_three_cases (mkPrincipal 2 "bo") 1 "post" "down"
                sampleStore 1) as H.
  destruct H as (l1 & l2 & E & Hv & Hc & _).
  - lia.
  - reflexivity.
  - reflexivity.
  - exact sampleStore_votes_ok.
  - reflexivity.
  - exists l1, l2. repeat split; assumption.
Defined.

(** C3, as the code has it.  The answer to a well-formed vote on an existing
    item has status 200 and exactly the fields [message], [votes] and
    [userVote]: [votes] is the counter as the store holds it after the call,
    which is the old counter moved by what the call added to the item's
    tally; [userVote] is the type of the caller's vote row after the call, or
    null when there is none; the action appears only inside [message]. *)
Theorem castVote_reply_fields (user : Principal) (i : Z) (ty vt : string)
  (st : Store) (c : Z) :
  i <> 0 ->
  includes ["post"; "comment"] ty = true ->
  includes ["up"; "down"] vt = true ->
  VotesOk st ->
  itemCounter st ty i = Some c ->
  let st' := fst (run (castVote user (Some i) (Some ty) (Some vt)) st) in
  exists r,
    snd (run (castVote user (Some i) (Some ty) (Some vt)) st) = Some r
    /\ status r = 200
    /\ map fst (body r) = ["message"; "votes"; "userVote"]
    /\ field "votes" (body r) = option_map JNum (itemCounter st' ty i)
    /\ itemCounter st' ty i =
       Some (c + (tally (votes st') ty i - tally (votes st) ty i))
    /\ field "userVote" (body r) =
       Some match selectVote (principal_id user) i ty st' with
            | Some v => JStr (vote_type v)
            | None => JNull
            end
    /\ In (field "message" (body r))
         [Some (JStr "Vote created successfully");
          Some (JStr "Vote removed successfully");
          Some (JStr "Vote updated successfully")].
Proof.
  intros Hi Hty Hvt Hok Hc st'.
  destruct (castVote_ledger_step user i ty vt st c Hi Hty Hvt Hok Hc)
    as [_ Hmove].
  destruct (Hmove ty i Hty) as (d & Htally & Hcounter). fold st' in Htally, Hcounter.
  rewrite Hc in Hcounter. cbn [option_map] in Hcounter.
  assert (itemCounter st' ty i =
          Some (c + (tally (votes st') ty i - tally (votes st) ty i))) as Hnet.
  { rewrite Hcounter. f_equal. lia. }
  revert Hcounter Hnet. subst st'.
  rewrite (castVote_run_valid user i ty vt st c Hi Hty Hvt
             (votes_check _ Hok) Hc).
  cbv zeta. unfold voteEffect.
  destruct (selectVote (principal_id user) i ty st) as [ev|] eqn:Esel;
    [destruct (vote_type ev =? vt)%string|];
    cbn [fst snd]; intros _ Hnet;
    (eexists; split; [reflexivity|]);
    (split; [reflexivity|]); (split; [reflexivity|]);
    (split;
     [cbn [body field]; string_tests;
      rewrite itemCounter_after, String.eqb_refl, Z.eqb_refl, Hc by assumption;
      reflexivity|]);
    (split; [exact Hnet|]);
    (split;
     [cbn [body field]; string_tests; rewrite selectVote_addVotesTo;
      reflexivity|]);
    cbn [body field]; string_tests; simpl; auto.
Qed.

Lemma castVote_reply_fields_witness :
  let user := mkPrincipal 1 "ana" in
  exists r,
    snd (run (castVote user (Some 1) (Some "post") (Some "up")) sampleStore)
    = Some r
    /\ map fst (body r) = ["message"; "votes"; "userVote"]
    /\ field "votes" (body r) = Some (JNum 2).
Proof.
  destruct (castVote_reply_fields (mkPrincipal 1 "ana") 1 "post" "up"
              sampleStore 1) as (r & Hr & _ & Hfields & Hvotes & _).
  - lia.
  - reflexivity.
  - reflexivity.
  - exact sampleStore_votes_ok.
  - reflexivity.
  - exists r. repeat split; assumption.
Defined.

(** C3 as the specification states it fails: a successful answer carries no field
    named [action]. *)
Lemma castVote_reply_no_action_field :
  snd (run (castVote (mkPrincipal 1 "ana") (Some 1) (Some "post") (Some "up"))
         sampleStore)
  = Some (mkResponse 200
            [("message", JStr "Vote created successfully");
             ("votes", JNum 2); ("userVote", JStr "up")])
  /\ hasField "action"
       (mkResponse 200
          [("message", JStr "Vote created successfully");
           ("votes", JNum 2); ("userVote", JStr "up")]) = false.
Proof. split; reflexivity. Qed.

Lemma addPostVotes_cancel (d d' i : Z) (ps : list PostRow) :
  d + d' = 0 -> map (addPostVotes d' i) (map (addPostVotes d i) ps) = ps.
Proof.
  intros Hd. rewrite map_map. rewrite <- (map_id ps) at 2.
  apply map_ext. intros [pid t a v]. unfold addPostVotes. simpl.
  destruct (pid =? i) eqn:E; simpl; rewrite ?E; [f_equal; lia|reflexivity].
Qed.

Lemma addCommentVotes_cancel (d d' i : Z) (cs : list CommentRow) :
  d + d' = 0 -> map (addCommentVotes d' i) (map (addCommentVotes d i) cs) = cs.
Proof.
  intros Hd. rewrite map_map. rewrite <- (map_id cs) at 2.
  apply map_ext. intros [cid p a b v]. unfold addCommentVotes. simpl.
  destruct (cid =? i) eqn:E; simpl; rewrite ?E; [f_equal; lia|reflexivity].
Qed.

(** Two counter statements on one item whose deltas cancel leave the item
    tables as they were. *)
Lemma addVotesTo_cancel (tn : string) (d d' i : Z) (st : Store)
  (vs vs' : list VoteRow) (seq seq' : Z) :
  d + d' = 0 ->
  addVotesTo tn d' i (withVotes (addVotesTo tn d i (withVotes st vs seq)) vs' seq')
  = withVotes st vs' seq'.
Proof.
  intros Hd. destruct st. unfold addVotesTo, withVotes, withPosts, withComments.
  destruct (tn =? "posts")%string; simpl.
  - rewrite addPostVotes_cancel by exact Hd. reflexivity.
  - rewrite addCommentVotes_cancel by exact Hd. reflexivity.
Qed.

Lemma seq_votes_addVotesTo (tn : string) (d i : Z) (st : Store) :
  seq_votes (addVotesTo tn d i st) = seq_votes st.
Proof. unfold addVotesTo. destruct (tn =? "posts")%string; reflexivity. Qed.

Lemma voteBy_refl (uid i : Z) (ty vt : string) (id : Z) :
  voteBy uid i ty (mkVote id uid i ty vt) = true.
Proof.
  unfold voteBy. simpl. rewrite !Z.eqb_refl, String.eqb_refl. reflexivity.
Qed.

(** C4. From the pre-vote state, where the caller has no vote on the item,
    casting the same vote type twice in a row brings every table back to
    what it was (only the rowid sequence of [votes] has moved): the counter
    of the item is the one before the two calls, the caller has no vote row
    on the item, and the second answer has [userVote] null. *)
Theorem castVote_twice_restores (user : Principal) (i : Z) (ty vt : string)
  (st : Store) (c : Z) :
  i <> 0 ->
  includes ["post"; "comment"] ty = true ->
  includes ["up"; "down"] vt = true ->
  VotesOk st ->
  itemCounter st ty i = Some c ->
  selectVote (principal_id user) i ty st = None ->
  let first := run (castVote user (Some i) (Some ty) (Some vt)) st in
  let second := run (castVote user (Some i) (Some ty) (Some vt)) (fst first) in
  fst second =
    withVotes st (votes st) (nextRowid (seq_votes st) (map vote_id (votes st)))
  /\ itemCounter (fst second) ty i = Some c
  /\ selectVote (principal_id user) i ty (fst second) = None
  /\ option_map (fun r => field "userVote" (body r)) (snd second)
     = Some (Some JNull).
Proof.
  intros Hi Hty Hvt Hok Hc Hnone first second.
  destruct (castVote_ledger_step user i ty vt st c Hi Hty Hvt Hok Hc)
    as [Hok1 _].
  fold first in Hok1.
  assert (first =
          (addVotesTo (tableNameFor ty) (if (vt =? "up")%string then 1 else -1) i
             (withVotes st
                (votes st
                 ++ [mkVote (nextRowid (seq_votes st) (map vote_id (votes st)))
                       (principal_id user) i ty vt])%list
                (nextRowid (seq_votes st) (map vote_id (votes st)))),
           snd first)) as Efirst.
  { unfold first.
    rewrite (castVote_run_valid user i ty vt st c Hi Hty Hvt
               (votes_check _ Hok) Hc).
    cbv zeta. unfold voteEffect. rewrite Hnone. reflexivity. }
  set (row := mkVote (nextRowid (seq_votes st) (map vote_id (votes st)))
                (principal_id user) i ty vt) in *.
  set (d := if (vt =? "up")%string then 1 else -1) in *.
  assert (itemCounter (fst first) ty i = Some (c + d)) as Hc1.
  { rewrite Efirst. cbn [fst]. rewrite itemCounter_after by assumption.
    rewrite String.eqb_refl, Z.eqb_refl, Hc. reflexivity. }
  assert (selectVote (principal_id user) i ty (fst first) = Some row) as Hsel1.
  { rewrite Efirst. cbn [fst]. rewrite selectVote_addVotesTo.
    unfold selectVote. cbn [votes withVotes].
    rewrite find_app_none by exact Hnone. cbn [find].
    unfold row. rewrite voteBy_refl. reflexivity. }
  assert (filter (fun v => negb (vote_id v =? vote_id row)) (votes (fst first))
          = votes st) as Hdel.
  { rewrite Efirst. cbn [fst]. rewrite votes_addVotesTo. cbn [votes withVotes].
    rewrite filter_app. cbn [filter]. rewrite Z.eqb_refl. cbn [negb].
    rewrite app_nil_r. apply (filter_other_key vote_id).
    intros r Hr E. apply (nextRowid_fresh (seq_votes st) (map vote_id (votes st))).
    change (nextRowid (seq_votes st) (map vote_id (votes st)))
      with (vote_id row).
    rewrite <- E. apply in_map. exact Hr. }
  assert (second =
          (withVotes st (votes st) (vote_id row),
           Some (mkResponse 200
                   [("message", JStr "Vote removed successfully");
                    ("votes", JNum (c + d + if (vt =? "up")%string then -1 else 1));
                    ("userVote",
                      match find (voteBy (principal_id user) i ty) (votes st) with
                      | Some v => JStr (vote_type v)
                      | None => JNull
                      end)])))
    as Esecond.
  { unfold second.
    rewrite (castVote_run_valid user i ty vt (fst first) (c + d) Hi Hty Hvt
               (votes_check _ Hok1) Hc1).
    cbv zeta. unfold voteEffect. rewrite Hsel1.
    replace (vote_type row =? vt)%string with true
      by (symmetry; apply String.eqb_refl).
    rewrite Hdel. f_equal.
    rewrite Efirst. cbn [fst]. rewrite seq_votes_addVotesTo.
    cbn [seq_votes withVotes].
    apply addVotesTo_cancel. unfold d. destruct (vt =? "up")%string; lia. }
  rewrite Esecond. cbn [fst snd option_map body field]. string_tests.
  unfold selectVote in Hnone |- *. cbn [votes withVotes].
  rewrite Hnone. repeat split. exact Hc.
Qed.

Lemma castVote_twice_restores_witness :
  let user := mkPrincipal 1 "ana" in
  let first :=
    run (castVote user (Some 5) (Some "comment") (Some "down")) sampleStore in
  let second :=
    run (castVote user (Some 5) (Some "comment") (Some "down")) (fst first) in
  itemCounter (fst first) "comment" 5 = Some (-1)
  /\ itemCounter (fst second) "comment" 5 = Some 0
  /\ selectVote 1 5 "comment" (fst second) = None.
Proof.
  split; [reflexivity|].
  destruct (castVote_twice_restores (mkPrincipal 1 "ana") 5 "comment" "down"
              sampleStore 0) as (_ & Hc & Hsel & _).
  - lia.
  - reflexivity.
  - reflexivity.
  - exact sampleStore_votes_ok.
  - reflexivity.
  - reflexivity.
  - split; assumption.
Defined.

Lemma find_exists {A} (p : A -> bool) (l : list A) (x : A) :
  In x l -> p x = true -> exists y, find p l = Some y.
Proof.
  intros Hin Hp. destruct (find p l) as [y|] eqn:E; [eauto|].
  rewrite (find_none p l E x Hin) in Hp. discriminate.
Qed.

(** ** Reports *)

(** C5. A well-formed report (item id and type present and valid, reason
    within bounds) on an item that does not exist is answered 404; on an
    item that exists, as soon as the table holds a report of the caller on
    that item, whatever its status, it is answered 409; in both cases the
    store is left as it was, so no report row is created. *)
Theorem submitReport_notfound_conflict (user : Principal) (i : Z)
  (ty : string) (why : option string) (st : Store) :
  i <> 0 ->
  includes ["post"; "comment"] ty = true ->
  reasonTooLong why = false ->
  (selectItemId (tableNameFor ty) i st = None ->
   run (submitReport user (Some i) (Some ty) why) st =
   (st, Some (errorReply 404 (ty ++ " not found"))))
  /\ (forall r,
        selectItemId (tableNameFor ty) i st <> None ->
        In r (reports st) ->
        reporter_id r = principal_id user ->
        reported_item_id r = i ->
        reported_item_type r = ty ->
        run (submitReport user (Some i) (Some ty) why) st =
        (st, Some (errorReply 409 "You have already reported this content"))).
Proof.
  intros Hi Hty Hwhy. unfold submitReport.
  rewrite (truthy_id _ Hi), (truthy_item_type _ Hty), Hty, Hwhy.
  cbn [negb tryCatch run]. split.
  - intros ->. reflexivity.
  - intros r Hitem Hin Hwho Hid Htype.
    destruct (selectItemId (tableNameFor ty) i st); [|contradiction].
    cbn [tryCatch run].
    destruct (find_exists (reportBy (principal_id user) i ty) (reports st) r Hin)
      as [r' Er'].
    { unfold reportBy. rewrite Hwho, Hid, Htype.
      rewrite !Z.eqb_refl, String.eqb_refl. reflexivity. }
    unfold selectReport. rewrite Er'. reflexivity.
Qed.

Lemma submitReport_notfound_conflict_witness :
  run (submitReport (mkPrincipal 1 "ana") (Some 5) (Some "comment")
         (Some "again"))
    sampleStore
  = (sampleStore, Some (errorReply 409 "You have already reported this content"))
  /\ run (submitReport (mkPrincipal 1 "ana") (Some 9) (Some "post") None)
       sampleStore
     = (sampleStore, Some (errorReply 404 "post not found")).
Proof.
  split.
  - apply (proj2 (submitReport_notfound_conflict (mkPrincipal 1 "ana") 5
                    "comment" (Some "again") sampleStore
                    ltac:(lia) eq_refl eq_refl)
             (mkReport 1 1 5 "comment" (Some "spam") "dismissed")).
    + discriminate.
    + simpl. auto.
    + reflexivity.
    + reflexivity.
    + reflexivity.
  - apply (proj1 (submitReport_notfound_conflict (mkPrincipal 1 "ana") 9
                    "post" None sampleStore ltac:(lia) eq_refl eq_refl)).
    reflexivity.
Defined.

(** ** Moderation *)

Lemma unique_key_filter {Row K : Type} (key : Row -> K) (keep : Row -> bool)
  (rows : list Row) (Hpk : NoDup (map key rows)) :
  NoDup (map key (filter keep rows)).
Proof.
  induction rows as [|r rows IH]; cbn [filter map]; [constructor|].
  inversion Hpk as [|? ? Hr Hrows]; subst.
  destruct (keep r); cbn [map]; [|exact (IH Hrows)].
  constructor; [|exact (IH Hrows)].
  intros Hin. apply Hr. apply in_map_iff in Hin as (r' & Er' & Hr').
  apply filter_In in Hr' as [Hr' _]. rewrite <- Er'. apply in_map. exact Hr'.
Qed.

Lemma idIn_spec (ids : list Z) (id : Z) : idIn ids id = true <-> In id ids.
Proof.
  unfold idIn. rewrite existsb_exists. split.
  - intros (x & Hx & E). apply Z.eqb_eq in E. subst. exact Hx.
  - intros H. exists id. split; [exact H|apply Z.eqb_refl].
Qed.

Lemma existingPostIds_spec (ids : list Z) (st : Store) (id : Z) :
  In id (existingPostIds ids st) <->
  In id ids /\ exists p, In p (posts st) /\ post_id p = id.
Proof.
  unfold existingPostIds. rewrite nodup_In, filter_In, existsb_exists.
  split; intros [Hin (p & Hp & E)]; (split; [exact Hin|]); exists p;
    (split; [exact Hp|]); [apply Z.eqb_eq|apply Z.eqb_eq in E]; exact E.
Qed.

(** With the primary key on [posts], the rows a bulk request selects are as
    many as the ids it resolves. *)
Lemma selectPostsIn_length (ids : list Z) (st : Store) :
  NoDup (map post_id (posts st)) ->
  List.length (selectPostsIn ids st) = List.length (existingPostIds ids st).
Proof.
  intros Hpk. unfold selectPostsIn.
  rewrite <- (length_map post_id).
  apply Nat.le_antisymm; apply NoDup_incl_length.
  - apply unique_key_filter. exact Hpk.
  - intros id Hid. apply in_map_iff in Hid as (p & E & Hp).
    apply filter_In in Hp as [Hp Hin]. apply idIn_spec in Hin.
    apply existingPostIds_spec. rewrite <- E. eauto.
  - apply NoDup_nodup.
  - intros id Hid. apply existingPostIds_spec in Hid as [Hin (p & Hp & E)].
    apply in_map_iff. exists p. split; [exact E|].
    apply filter_In. split; [exact Hp|]. apply idIn_spec. rewrite E. exact Hin.
Qed.

Lemma insertLog_accepts (moderatorId : Z) (act targetType : string)
  (targetId : option Z) (info : option string) (st : Store) :
  includes ["post"; "comment"; "user"; "report"] targetType = true ->
  insertLog moderatorId act targetType targetId info st =
  let row :=
    mkLog (nextRowid (seq_logs st) (map log_id (moderation_logs st)))
      moderatorId act targetType targetId info in
  Some (withLogs st (moderation_logs st ++ [row])%list (log_id row)).
Proof.
  intros H. unfold insertLog, checkLog. cbn [target_type]. rewrite H.
  reflexivity.
Qed.

Lemma length_zero_nil {A} (l : list A) : List.length l = 0%nat <-> l = [].
Proof. destruct l; simpl; split; intros H; congruence. Qed.

(** C6. An id list that is absent, not an array or empty is answered 400.
    For a non-empty list, the request resolves the ids that name a post; it
    is answered 404 exactly when none does, and then nothing changes;
    otherwise the posts left are exactly the posts whose id is not a resolved
    one, the table shrinks by the number of resolved ids, and [deletedCount]
    is that number. *)
Theorem bulkDeletePosts_contract (user : UserRow) (ids : list Z) (st : Store) :
  NoDup (map post_id (posts st)) ->
  ids <> [] ->
  let resolved := existingPostIds ids st in
  let out := run (bulkDeletePosts user (Some ids)) st in
  run (bulkDeletePosts user None) st =
    (st, Some (errorReply 400 "postIds array is required"))
  /\ run (bulkDeletePosts user (Some [])) st =
     (st, Some (errorReply 400 "postIds array is required"))
  /\ (resolved = [] <-> option_map status (snd out) = Some 404)
  /\ (resolved = [] -> fst out = st)
  /\ (resolved <> [] ->
      option_map status (snd out) = Some 200
      /\ (forall p, In p (posts (fst out)) <->
                    In p (posts st) /\ ~ In (post_id p) resolved)
      /\ (List.length (posts st) =
          List.length (posts (fst out)) + List.length resolved)%nat
      /\ option_map (fun r => field "deletedCount" (body r)) (snd out) =
         Some (Some (JNum (Z.of_nat (List.length resolved))))).
Proof.
  intros Hpk Hids resolved out.
  split; [reflexivity|]. split; [reflexivity|].
  pose proof (selectPostsIn_length ids st Hpk) as Hlen. fold resolved in Hlen.
  subst out. unfold bulkDeletePosts.
  destruct ids as [|id0 ids']; [contradiction|].
  remember (id0 :: ids') as ids eqn:Eids.
  replace (List.length ids =? 0)%nat with false by (subst ids; reflexivity).
  cbn [tryCatch run].
  destruct (selectPostsIn ids st) as [|p0 found] eqn:Efound.
  - (* nothing resolved *)
    cbn [List.length Nat.eqb tryCatch run fst snd option_map status errorReply].
    symmetry in Hlen. apply length_zero_nil in Hlen.
    repeat split; try reflexivity; try congruence.
  - (* some post resolved *)
    assert (resolved <> []) as Hres.
    { intros E. rewrite E in Hlen. discriminate. }
    cbn [List.length Nat.eqb tryCatch run dbRun logModerationAction
         deletePostsIn].
    rewrite insertLog_accepts by reflexivity.
    cbn [fst snd run option_map status withLogs posts withPosts].
    split; [split; [contradiction|discriminate]|].
    split; [contradiction|]. intros _.
    split; [reflexivity|].
    split; [|split].
    + intros p. rewrite filter_In, negb_true_iff.
      split; intros [Hp Hnot]; (split; [exact Hp|]).
      * intros Hin. apply existingPostIds_spec in Hin as [Hin _].
        apply idIn_spec in Hin. congruence.
      * destruct (idIn ids (post_id p)) eqn:E; [|reflexivity].
        exfalso. apply Hnot. apply existingPostIds_spec.
        apply idIn_spec in E. eauto.
    + rewrite <- Hlen.
      pose proof (filter_length (fun p => idIn ids (post_id p)) (posts st)) as H.
      unfold selectPostsIn in Efound. rewrite Efound in H.
      rewrite <- H. apply Nat.add_comm.
    + cbn [body field]. string_tests. rewrite <- Hlen. reflexivity.
Qed.

Lemma bulkDeletePosts_contract_witness :
  let user := mkUser 2 "bo" "moderator" 1 in
  let out := run (bulkDeletePosts user (Some [1; 1; 7; 2])) sampleStore in
  existingPostIds [1; 1; 7; 2] sampleStore = [1; 2]
  /\ posts (fst out) = []
  /\ option_map (fun r => field "deletedCount" (body r)) (snd out) =
     Some (Some (JNum 2)).
Proof.
  split; [reflexivity|]. split; [reflexivity|].
  destruct (bulkDeletePosts_contract (mkUser 2 "bo" "moderator" 1)
              [1; 1; 7; 2] sampleStore) as (_ & _ & _ & _ & H).
  - simpl. repeat constructor; simpl; intuition discriminate.
  - discriminate.
  - destruct H as (_ & _ & _ & Hcount).
    + discriminate.
    + exact Hcount.
Defined.

Lemma find_map_keeps {A} (p : A -> bool) (f : A -> A) (l : list A) :
  (forall x, p (f x) = p x) ->
  find p (map f l) = option_map f (find p l).
Proof.
  intros Hp. induction l as [|x l IH]; simpl; [reflexivity|].
  rewrite Hp. destruct (p x); [reflexivity|exact IH].
Qed.

Lemma selectUserByName_updateBanned (flag : Z) (name : string) (st : Store)
  (target : UserRow) (ls : list LogRow) (seq : Z) :
  selectUserByName name st = Some target ->
  selectUserByName name
    (withLogs (withUsers st (map (setBanned flag (users_id target)) (users st)))
       ls seq)
  = Some (mkUser (users_id target) (username target) (role target) flag).
Proof.
  unfold selectUserByName. cbn [users withLogs withUsers]. intros H.
  rewrite find_map_keeps, H.
  - cbn [option_map]. unfold setBanned. rewrite Z.eqb_refl. reflexivity.
  - intros u. unfold setBanned. destruct (users_id u =? users_id target);
      reflexivity.
Qed.

(** C7, as the code has it.  [banUser] answers 404 when no user has the name
    and 400 with the message "User is already banned" when the user's ban
    flag is set; otherwise it answers 200 and the user's flag is 1.
    [unbanUser] mirrors it: 404, then 400 with "User is not banned" when the
    flag is clear, otherwise 200 and the flag is 0.  The refusals leave the
    store as it was. *)
Theorem ban_unban_contract (user : UserRow) (name : string) (st : Store) :
  (selectUserByName name st = None ->
   run (banUser user name) st = (st, Some (errorReply 404 "User not found"))
   /\ run (unbanUser user name) st =
      (st, Some (errorReply 404 "User not found")))
  /\ (forall target,
        selectUserByName name st = Some target ->
        (is_banned target <> 0 ->
         run (banUser user name) st =
           (st, Some (errorReply 400 "User is already banned"))
         /\ option_map status (snd (run (unbanUser user name) st)) = Some 200
         /\ selectUserByName name (fst (run (unbanUser user name) st)) =
            Some (mkUser (users_id target) (username target) (role target) 0))
        /\ (is_banned target = 0 ->
            run (unbanUser user name) st =
              (st, Some (errorReply 400 "User is not banned"))
            /\ option_map status (snd (run (banUser user name) st)) = Some 200
            /\ selectUserByName name (fst (run (banUser user name) st)) =
               Some (mkUser (users_id target) (username target) (role target)
                       1))).
Proof.
  unfold banUser, unbanUser. cbn [tryCatch run]. split.
  - intros ->. split; reflexivity.
  - intros target Hsel. rewrite Hsel. split; intros Hban.
    + destruct (Z.eqb_spec (is_banned target) 0) as [E|_]; [contradiction|].
      cbn [negb tryCatch run dbRun logModerationAction updateBanned].
      rewrite insertLog_accepts by reflexivity.
      cbn [run fst snd option_map status].
      repeat split. apply selectUserByName_updateBanned. exact Hsel.
    + rewrite Hban.
      cbn [Z.eqb negb tryCatch run dbRun logModerationAction updateBanned].
      rewrite insertLog_accepts by reflexivity.
      cbn [run fst snd option_map status].
      repeat split. apply selectUserByName_updateBanned. exact Hsel.
Qed.

Lemma ban_unban_contract_witness :
  let moderator := mkUser 3 "cy" "admin" 0 in
  run (banUser moderator "bo") sampleStore =
    (sampleStore, Some (errorReply 400 "User is already banned"))
  /\ run (unbanUser moderator "ana") sampleStore =
     (sampleStore, Some (errorReply 400 "User is not banned"))
  /\ selectUserByName "ana" (fst (run (banUser moderator "ana") sampleStore)) =
     Some (mkUser 1 "ana" "user" 1).
Proof.
  pose proof (ban_unban_contract (mkUser 3 "cy" "admin" 0) "bo" sampleStore)
    as [_ Hbo].
  pose proof (ban_unban_contract (mkUser 3 "cy" "admin" 0) "ana" sampleStore)
    as [_ Hana].
  destruct (Hbo (mkUser 2 "bo" "moderator" 1) eq_refl) as [Hbanned _].
  destruct (Hana (mkUser 1 "ana" "user" 0) eq_refl) as [_ Hclear].
  destruct Hbanned as [H1 _]; [discriminate|].
  destruct Hclear as (H2 & _ & H3); [reflexivity|].
  repeat split; assumption.
Defined.

(** C7 as the specification states it fails: banning a banned user and unbanning a user
    who is not banned are answered with status 400, the very status of an
    invalid request (here a bulk delete without ids), not one of their own. *)
Lemma ban_conflict_status_is_invalid_status :
  let moderator := mkUser 3 "cy" "admin" 0 in
  option_map status (snd (run (banUser moderator "bo") sampleStore)) = Some 400
  /\ option_map status (snd (run (unbanUser moderator "ana") sampleStore)) =
     Some 400
  /\ option_map status
       (snd (run (bulkDeletePosts moderator (Some [])) sampleStore)) = Some 400
  /\ option_map status
       (snd (run (submitReport (mkPrincipal 1 "ana") (Some 5) (Some "comment")
                    None) sampleStore)) = Some 409.
Proof. repeat split. Qed.

(** ** Dismissing a report *)

Lemma checkReport_dismissed (id : Z) (r : ReportRow) :
  checkReport r = true -> checkReport (setReportStatus "dismissed" id r) = true.
Proof.
  intros H. unfold setReportStatus. destruct (report_id r =? id); [|exact H].
  unfold checkReport in *. cbn [reported_item_type report_status].
  apply andb_true_iff in H as [H _]. rewrite H. reflexivity.
Qed.

Lemma updateReportStatus_dismissed (id : Z) (st : Store) :
  forallb checkReport (reports st) = true ->
  updateReportStatus "dismissed" (Some id) st =
  Some (withReports st (map (setReportStatus "dismissed" id) (reports st))
          (seq_reports st)).
Proof.
  intros Hck. unfold updateReportStatus.
  replace (forallb _ _) with true; [reflexivity|].
  symmetry. apply forallb_forall. intros r Hr.
  apply filter_In in Hr as [Hr _]. apply checkReport_dismissed.
  rewrite forallb_forall in Hck. auto.
Qed.

Lemma setReportStatus_idem (s : string) (id : Z) (rs : list ReportRow) :
  map (setReportStatus s id) (map (setReportStatus s id) rs) =
  map (setReportStatus s id) rs.
Proof.
  rewrite map_map. apply map_ext. intros r. unfold setReportStatus.
  destruct (report_id r =? id) eqn:E; cbn [report_id]; rewrite E; reflexivity.
Qed.

(** C8. [dismissReport] answers 404 when no report has the id.  Otherwise,
    whatever the status of the report (pending, reviewed or dismissed), it
    answers 200 and the report's status is [dismissed]; users, posts,
    comments and votes are untouched; dismissing again answers 200 again and
    leaves the reports as the first dismissal left them. *)
Theorem dismissReport_contract (user : UserRow) (reportId : option Z)
  (st : Store) :
  forallb checkReport (reports st) = true ->
  (selectReportById reportId st = None ->
   run (dismissReport user reportId) st =
   (st, Some (errorReply 404 "Report not found")))
  /\ (forall report,
        selectReportById reportId st = Some report ->
        let out := run (dismissReport user reportId) st in
        let again := run (dismissReport user reportId) (fst out) in
        snd out =
          Some (mkResponse 200
                  [("message", JStr "Report dismissed successfully")])
        /\ selectReportById reportId (fst out) =
           Some (mkReport (report_id report) (reporter_id report)
                   (reported_item_id report) (reported_item_type report)
                   (reason report) "dismissed")
        /\ users (fst out) = users st
        /\ posts (fst out) = posts st
        /\ comments (fst out) = comments st
        /\ votes (fst out) = votes st
        /\ snd again = snd out
        /\ reports (fst again) = reports (fst out)).
Proof.
  intros Hck. unfold dismissReport. cbn [tryCatch run]. split.
  - intros ->. reflexivity.
  - intros report Hsel. rewrite Hsel.
    destruct reportId as [id|]; [|discriminate].
    cbn [tryCatch run dbRun logModerationAction].
    rewrite (updateReportStatus_dismissed id st Hck).
    rewrite insertLog_accepts by reflexivity.
    cbv zeta. cbn [run fst snd].
    assert (selectReportById (Some id)
              (withReports st (map (setReportStatus "dismissed" id) (reports st))
                 (seq_reports st))
            = Some (mkReport (report_id report) (reporter_id report)
                      (reported_item_id report) (reported_item_type report)
                      (reason report) "dismissed")) as Hafter.
    { unfold selectReportById in *. cbn [reports withReports].
      rewrite find_map_keeps, Hsel.
      - cbn [option_map]. unfold setReportStatus.
        apply find_some in Hsel as [_ E]. rewrite E. reflexivity.
      - intros r. unfold setReportStatus.
        destruct (report_id r =? id) eqn:E; cbn [report_id]; rewrite ?E;
          reflexivity. }
    split; [reflexivity|]. split; [exact Hafter|].
    repeat (split; [reflexivity|]).
    unfold selectReportById in *. cbn [reports withLogs withReports] in *.
    rewrite Hafter. cbn [tryCatch run dbRun logModerationAction].
    rewrite updateReportStatus_dismissed.
    + rewrite insertLog_accepts by reflexivity. cbv zeta.
      cbn [run fst snd reports withLogs withReports].
      split; [reflexivity|]. apply setReportStatus_idem.
    + cbn [reports withLogs withReports]. apply forallb_forall.
      intros r Hr. apply in_map_iff in Hr as (r0 & <- & Hr0).
      apply checkReport_dismissed. rewrite forallb_forall in Hck. auto.
Qed.

Lemma dismissReport_contract_witness :
  let moderator := mkUser 3 "cy" "admin" 0 in
  let out := run (dismissReport moderator (Some 1)) sampleStore in
  selectReportById (Some 1) sampleStore =
    Some (mkReport 1 1 5 "comment" (Some "spam") "dismissed")
  /\ option_map status (snd out) = Some 200
  /\ reports (fst out) = reports sampleStore
  /\ votes (fst out) = votes sampleStore.
Proof.
  split; [reflexivity|].
  destruct (dismissReport_contract (mkUser 3 "cy" "admin" 0) (Some 1)
              sampleStore eq_refl) as [_ H].
  destruct (H _ eq_refl) as (Hout & _ & _ & _ & _ & Hvotes & _ & _).
  split; [rewrite Hout; reflexivity|]. split; [reflexivity|exact Hvotes].
Defined.

(** ** The moderator gate *)

Lemma run_bind {A B} (t : Task A) (f : A -> Task B) (st : Store) :
  run (bind t f) st =
  match run t st with
  | (st', Some a) => run (f a) st'
  | (st', None) => (st', None)
  end.
Proof.
  revert st. induction t as [a| |R q k IH|u k IHk kerr IHkerr]; intros st;
    cbn [bind run]; try reflexivity.
  - apply IH.
  - destruct (u st); [apply IHk|apply IHkerr].
Qed.

Lemma selectUserById_updateBanned (flag id : Z) (st : Store) (u : UserRow) :
  selectUserById id st = Some u ->
  selectUserById id (withUsers st (map (setBanned flag id) (users st))) =
  Some (mkUser (users_id u) (username u) (role u) flag).
Proof.
  unfold selectUserById. cbn [users withUsers]. intros H.
  rewrite find_map_keeps, H.
  - cbn [option_map]. unfold setBanned.
    apply find_some in H as [_ E]. rewrite E. reflexivity.
  - intros r. unfold setBanned.
    destruct (users_id r =? id) eqn:E; cbn [users_id]; rewrite ?E;
      reflexivity.
Qed.

(** C10. A caller whose row in [users] has role moderator or admin passes the
    gate whatever the row's ban flag: the gate hands the row on, every
    moderation route behind the gate runs as if called directly, and after
    the caller's flag is set to any value at all (1, a banned moderator,
    included) the gate still hands the row on, the same but for the flag. *)
Theorem requireModerator_ignores_ban (caller : Principal) (st : Store)
  (u : UserRow) :
  selectUserById (principal_id caller) st = Some u ->
  includes ["moderator"; "admin"] (role u) = true ->
  run (requireModerator (Some caller)) st = (st, Some (inr u))
  /\ (forall handler : UserRow -> Task Response,
        run (moderated (Some caller) handler) st = run (handler u) st)
  /\ (forall flag,
        let st' :=
          withUsers st (map (setBanned flag (principal_id caller)) (users st)) in
        run (requireModerator (Some caller)) st' =
        (st', Some (inr (mkUser (users_id u) (username u) (role u) flag)))).
Proof.
  intros Hsel Hrole.
  assert (run (requireModerator (Some caller)) st = (st, Some (inr u))) as Hgate.
  { unfold requireModerator. cbn [tryCatch run]. rewrite Hsel, Hrole.
    reflexivity. }
  split; [exact Hgate|]. split.
  - intros handler. unfold moderated. rewrite run_bind, Hgate. reflexivity.
  - intros flag st'. unfold requireModerator. cbn [tryCatch run].
    subst st'. rewrite (selectUserById_updateBanned flag _ st u Hsel).
    cbn [role]. rewrite Hrole. reflexivity.
Qed.

Lemma requireModerator_ignores_ban_witness :
  let caller := mkPrincipal 2 "bo" in
  selectUserById 2 sampleStore = Some (mkUser 2 "bo" "moderator" 1)
  /\ run (requireModerator (Some caller)) sampleStore =
     (sampleStore, Some (inr (mkUser 2 "bo" "moderator" 1)))
  /\ run (moderated (Some caller) (fun user => banUser user "ana")) sampleStore
     = run (banUser (mkUser 2 "bo" "moderator" 1) "ana") sampleStore.
Proof.
  split; [reflexivity|].
  destruct (requireModerator_ignores_ban (mkPrincipal 2 "bo") sampleStore
              (mkUser 2 "bo" "moderator" 1) eq_refl eq_refl)
    as (Hgate & Hroutes & _).
  split; [exact Hgate|]. apply Hroutes.
Defined.

(** ** Requests in flight *)

(** *** Every vote request ends within six awaited statements *)

Lemma within_step {A} (n : nat) (t : Task A) (st : Store) :
  within n t -> within (Nat.pred n) (snd (step t st)).
Proof.
  destruct t as [a| |R q k|u k kerr]; cbn [step snd within]; auto.
  - destruct n as [|m]; [tauto|]. intros H. apply H.
  - destruct n as [|m]; [tauto|]. intros [Hk Hkerr].
    destruct (u st); assumption.
Qed.

Lemma within_0_finished {A} (t : Task A) : within 0 t -> finished t = true.
Proof. destruct t; cbn [within finished]; tauto. Qed.

Lemma castVote_within (user : Principal) (a : option Z) (b c : option string) :
  within 6 (castVote user a b c).
Proof.
  unfold castVote.
  destruct (truthyNum a) as [i|]; [|exact I].
  destruct (truthyStr b) as [ty|]; [|exact I].
  destruct (truthyStr c) as [vt|]; [|exact I].
  destruct (negb (includes ["post"; "comment"] ty)); [exact I|].
  destruct (negb (includes ["up"; "down"] vt)); [exact I|].
  unfold verifyItem, findVote. cbn [tryCatch within].
  intros [j|]; [|exact I]. cbn [tryCatch within].
  intros ev. unfold decideVote, applyVoteDelta, readCounter, readUserVote.
  destruct ev as [ev|]; [destruct (vote_type ev =? vt)%string|];
    cbn [tryCatch dbRun within]; (split; [|exact I]); (split; [|exact I]);
    intros updatedItem cv; destruct updatedItem; exact I.
Qed.

Lemma stepAt_nth {A} (i k : nat) (ts : list (Task A)) (st : Store) :
  nth_error (snd (stepAt i ts st)) k =
  if Nat.eqb k i
  then option_map (fun t => snd (step t st)) (nth_error ts k)
  else nth_error ts k.
Proof.
  revert i k. induction ts as [|t ts IH]; intros i k.
  - cbn [stepAt snd]. destruct k; destruct (Nat.eqb _ i); reflexivity.
  - destruct i as [|i]; cbn [stepAt].
    + destruct (step t st) as [st' t'] eqn:E. cbn [snd].
      destruct k as [|k]; cbn [nth_error Nat.eqb option_map].
      * rewrite E. reflexivity.
      * reflexivity.
    + specialize (IH i). destruct (stepAt i ts st) as [st' ts'']. cbn [snd] in *.
      destruct k as [|k]; cbn [nth_error Nat.eqb]; [reflexivity|apply IH].
Qed.

Lemma stepAt_length {A} (i : nat) (ts : list (Task A)) (st : Store) :
  List.length (snd (stepAt i ts st)) = List.length ts.
Proof.
  revert i. induction ts as [|t ts IH]; intros i; [reflexivity|].
  destruct i as [|i]; cbn [stepAt].
  - destruct (step t st). reflexivity.
  - specialize (IH i). destruct (stepAt i ts st). cbn [snd List.length] in *.
    congruence.
Qed.

Lemma interleave_length {A} (sched : list nat) (ts : list (Task A))
  (st : Store) :
  List.length (snd (interleave sched ts st)) = List.length ts.
Proof.
  revert ts st. induction sched as [|i sched IH]; intros ts st; [reflexivity|].
  cbn [interleave]. pose proof (stepAt_length i ts st) as H.
  destruct (stepAt i ts st) as [st' ts']. cbn [snd] in H.
  rewrite IH. exact H.
Qed.

(** A task that ends within [b k] statements and has been scheduled [m]
    times ends within [b k - m] more. *)
Lemma interleave_within {A} (sched : list nat) :
  forall (ts : list (Task A)) (st : Store) (b : nat -> nat),
    (forall k t, nth_error ts k = Some t -> within (b k) t) ->
    forall k t',
      nth_error (snd (interleave sched ts st)) k = Some t' ->
      within (b k - count_occ Nat.eq_dec sched k) t'.
Proof.
  induction sched as [|i sched IH]; intros ts st b Hb k t' Hk.
  - cbn [interleave snd count_occ] in *. rewrite Nat.sub_0_r. auto.
  - cbn [interleave] in Hk.
    pose proof (fun j => stepAt_nth i j ts st) as Hnth.
    destruct (stepAt i ts st) as [st1 ts1]. cbn [snd] in Hnth.
    specialize (IH ts1 st1 (fun j => if Nat.eqb j i then Nat.pred (b j) else b j)).
    cbn beta in IH.
    assert (forall j t, nth_error ts1 j = Some t ->
                        within (if Nat.eqb j i then Nat.pred (b j) else b j) t)
      as Hb1.
    { intros j t Hj. rewrite Hnth in Hj.
      destruct (Nat.eqb j i).
      - destruct (nth_error ts j) as [t0|] eqn:E0; [|discriminate].
        cbn [option_map] in Hj. inversion Hj. subst t.
        apply within_step. apply Hb. exact E0.
      - apply Hb. exact Hj. }
    specialize (IH Hb1 k t' Hk). cbn [count_occ].
    destruct (Nat.eq_dec i k) as [->|Hne].
    + rewrite Nat.eqb_refl in IH.
      replace (b k - S (count_occ Nat.eq_dec sched k))%nat
        with (Nat.pred (b k) - count_occ Nat.eq_dec sched k)%nat by lia.
      exact IH.
    + destruct (Nat.eqb_spec k i); [congruence|exact IH].
Qed.

(** *** One statement of one request *)

Lemma itemCounter_addVotesTo (ty ty' : string) (i i' d : Z) (st : Store) :
  includes ["post"; "comment"] ty = true ->
  includes ["post"; "comment"] ty' = true ->
  itemCounter (addVotesTo (tableNameFor ty) d i st) ty' i' =
  option_map
    (fun c => c + (if (ty =? ty')%string && (i =? i') then d else 0))
    (itemCounter st ty' i').
Proof.
  intros Hty Hty'.
  exact (itemCounter_after ty ty' i i' d st (votes st) (seq_votes st) Hty Hty').
Qed.

(** The vote-row statement of [decideVote], when the [existingVote] it was
    given is the caller's row as the store has it: the store accepts it, with
    the effect [voteEffect] describes, and the request goes on to the counter
    statement. *)
Lemma decideVote_step (uid i : Z) (ty vt : string) (st : Store) :
  includes ["post"; "comment"] ty = true ->
  includes ["up"; "down"] vt = true ->
  forallb checkVote (votes st) = true ->
  step (tryCatch (decideVote uid i ty vt (selectVote uid i ty st))
          (Ret internalError)) st =
  let '(vs, seq, d, act) := voteEffect uid i ty vt st in
  (withVotes st vs seq,
   tryCatch (applyVoteDelta uid i ty d act) (Ret internalError)).
Proof.
  intros Hty Hvt Hck. unfold decideVote, voteEffect.
  destruct (selectVote uid i ty st) as [ev|] eqn:Esel.
  - destruct (vote_type ev =? vt)%string; cbn [tryCatch dbRun step].
    + reflexivity.
    + rewrite (updateVoteType_accepts _ _ _ Hvt Hck). reflexivity.
  - cbn [tryCatch dbRun step].
    rewrite (insertVote_accepts _ _ _ _ _ Hty Hvt Esel). reflexivity.
Qed.

(** A request that has answered owes nothing. *)
Lemma flight_finished (ty0 : string) (i0 uid : Z) (st : Store)
  (t : Task Response) (p : Z) :
  InFlight ty0 i0 uid st t p -> finished t = true -> p = 0.
Proof.
  intros H. destruct H as [r|i ty vt _ _|i ty vt _ _|i ty vt _ _|i ty d act _
                          |i ty act|i ty act updatedItem];
    try reflexivity.
  discriminate.
Qed.

(** The statements of other users do not disturb a request in flight. *)
Lemma flight_stable (ty0 : string) (i0 uid : Z) (st st' : Store)
  (t : Task Response) (p : Z) :
  InFlight ty0 i0 uid st t p ->
  (forall j ty', selectVote uid j ty' st' = selectVote uid j ty' st) ->
  InFlight ty0 i0 uid st' t p.
Proof.
  intros H Hsame. destruct H; try (constructor; assumption).
  rewrite <- Hsame. constructor; assumption.
Qed.

Lemma castVote_in_flight (ty0 : string) (i0 : Z) (st : Store)
  (user : Principal) (a : option Z) (b c : option string) :
  InFlight ty0 i0 (principal_id user) st (castVote user a b c) 0.
Proof.
  unfold castVote.
  destruct (truthyNum a) as [i|]; [|constructor].
  destruct (truthyStr b) as [ty|]; [|constructor].
  destruct (truthyStr c) as [vt|]; [|constructor].
  destruct (includes ["post"; "comment"] ty) eqn:Hty; [|constructor].
  destruct (includes ["up"; "down"] vt) eqn:Hvt; [|constructor].
  cbn [negb]. cbv iota. constructor; assumption.
Qed.

(** A statement that only reads leaves everything in place. *)
Lemma flight_read (ty0 : string) (i0 uid : Z) (st : Store)
  (t' : Task Response) :
  VotesOk st ->
  InFlight ty0 i0 uid st t' 0 ->
  exists p',
    InFlight ty0 i0 uid st t' p'
    /\ VotesOk st
    /\ (forall c,
          itemCounter st ty0 i0 = Some c ->
          exists c',
            itemCounter st ty0 i0 = Some c'
            /\ c' + p' - tally (votes st) ty0 i0 =
               c + 0 - tally (votes st) ty0 i0)
    /\ (forall uid' j ty',
          uid' <> uid ->
          selectVote uid' j ty' st = selectVote uid' j ty' st).
Proof.
  intros Hok H. exists 0. split; [exact H|]. split; [exact Hok|]. split.
  - intros c Hc. exists c. split; [exact Hc|reflexivity].
  - reflexivity.
Qed.

(** One statement of a request in flight: the request is in flight
    afterwards, the schema's promises hold, the counter of the item plus what
    the request owes it stays as far from the item's tally as it was, and the
    vote rows of the other users are where they were. *)
Lemma flight_step (ty0 : string) (i0 uid : Z) (st : Store)
  (t : Task Response) (p : Z) :
  includes ["post"; "comment"] ty0 = true ->
  VotesOk st ->
  InFlight ty0 i0 uid st t p ->
  let st' := fst (step t st) in
  exists p',
    InFlight ty0 i0 uid st' (snd (step t st)) p'
    /\ VotesOk st'
    /\ (forall c,
          itemCounter st ty0 i0 = Some c ->
          exists c',
            itemCounter st' ty0 i0 = Some c'
            /\ c' + p' - tally (votes st') ty0 i0 =
               c + p - tally (votes st) ty0 i0)
    /\ (forall uid' j ty',
          uid' <> uid ->
          selectVote uid' j ty' st' = selectVote uid' j ty' st).
Proof.
  intros Hty0 Hok H.
  destruct H as [r|i ty vt Hty Hvt|i ty vt Hty Hvt|i ty vt Hty Hvt
                |i ty d act Hty|i ty act|i ty act updatedItem].
  - (* answered *)
    cbn [step fst snd]. apply flight_read; [exact Hok|constructor].
  - (* the item is looked up *)
    unfold verifyItem. cbn [tryCatch step fst snd].
    apply flight_read; [exact Hok|].
    destruct (selectItemId (tableNameFor ty) i st); constructor; assumption.
  - (* the caller's vote is looked up *)
    unfold findVote. cbn [tryCatch step fst snd].
    apply flight_read; [exact Hok|]. constructor; assumption.
  - (* the vote-row statement *)
    rewrite (decideVote_step uid i ty vt st Hty Hvt (votes_check _ Hok)).
    destruct (voteEffect uid i ty vt st) as [[[vs seq] d] act] eqn:Eeff.
    destruct (voteEffect_sound _ _ _ _ _ _ _ _ _ Hty Hvt Hok Eeff)
      as (Hok' & Htally & Hframe).
    cbn [fst snd].
    exists (if (ty =? ty0)%string && (i =? i0) then d else 0).
    split; [constructor; assumption|]. split; [exact Hok'|]. split.
    + intros c Hc. exists c. split; [exact Hc|].
      cbn [votes withVotes]. rewrite Htally. lia.
    + intros uid' j ty' Hne. unfold selectVote. cbn [votes withVotes].
      apply Hframe. exact Hne.
  - (* the counter statement *)
    exists 0. unfold applyVoteDelta. cbn [tryCatch dbRun step addVotes fst snd].
    split; [constructor|]. split; [apply VotesOk_addVotesTo; exact Hok|]. split.
    + intros c Hc. rewrite (itemCounter_addVotesTo ty ty0 i i0 d st Hty Hty0).
      rewrite Hc. cbn [option_map]. eexists. split; [reflexivity|].
      rewrite votes_addVotesTo. lia.
    + intros uid' j ty' _. apply selectVote_addVotesTo.
  - (* the counter is read back *)
    unfold readCounter. cbn [tryCatch step fst snd].
    apply flight_read; [exact Hok|]. constructor.
  - (* the caller's vote is read back *)
    unfold readUserVote. cbn [tryCatch step fst snd].
    apply flight_read; [exact Hok|].
    unfold voteReply. destruct updatedItem; constructor.
Qed.

(** *** Configurations: several requests of different users *)

Section Flights.
Variables (ty0 : string) (i0 : Z).
Hypothesis Hty0 : includes ["post"; "comment"] ty0 = true.

(** Each request with its user and the delta it owes. *)
Let flying (st : Store) (g : Z * Z) (t : Task Response) : Prop :=
  InFlight ty0 i0 (fst g) st t (snd g).

Lemma flying_stable (st st' : Store) (gs : list (Z * Z))
  (ts : list (Task Response)) :
  Forall2 (flying st) gs ts ->
  (forall uid, In uid (map fst gs) ->
               forall j ty', selectVote uid j ty' st' = selectVote uid j ty' st) ->
  Forall2 (flying st') gs ts.
Proof.
  induction 1 as [|g t gs ts Hg Hrest IH]; intros Hsame; constructor.
  - apply (flight_stable ty0 i0 (fst g) st st' t (snd g) Hg).
    apply Hsame. left. reflexivity.
  - apply IH. intros uid Huid. apply Hsame. right. exact Huid.
Qed.

(** One scheduled statement keeps the configuration's invariant: every
    request is in flight, the schema's promises hold, and the counter of
    the item plus all the deltas owed to it is as far from the tally as
    before. *)
Lemma stepAt_flights (k : nat) :
  forall (gs : list (Z * Z)) (ts : list (Task Response)) (st : Store) (c : Z),
    NoDup (map fst gs) ->
    VotesOk st ->
    Forall2 (flying st) gs ts ->
    itemCounter st ty0 i0 = Some c ->
    exists gs' c',
      map fst gs' = map fst gs
      /\ Forall2 (flying (fst (stepAt k ts st))) gs' (snd (stepAt k ts st))
      /\ VotesOk (fst (stepAt k ts st))
      /\ itemCounter (fst (stepAt k ts st)) ty0 i0 = Some c'
      /\ c' + sumZ (map snd gs')
         - tally (votes (fst (stepAt k ts st))) ty0 i0 =
         c + sumZ (map snd gs) - tally (votes st) ty0 i0
      /\ (forall uid,
            ~ In uid (map fst gs) ->
            forall j ty',
              selectVote uid j ty' (fst (stepAt k ts st)) =
              selectVote uid j ty' st).
Proof.
  induction k as [|k IH]; intros gs ts st c Hnd Hok Hfl Hc.
  - destruct Hfl as [|g t gs ts Hg Hrest].
    + exists [], c. cbn [stepAt fst snd map].
      split; [reflexivity|]. split; [constructor|]. split; [exact Hok|].
      split; [exact Hc|]. split; reflexivity.
    + cbn [stepAt].
      destruct (flight_step ty0 i0 (fst g) st t (snd g) Hty0 Hok Hg)
        as (p' & Hg' & Hok' & Hbal & Hframe).
      destruct (step t st) as [st' t'] eqn:Estep. cbn [fst snd] in *.
      destruct (Hbal c Hc) as (c' & Hc' & Heq).
      inversion Hnd as [|? ? Hfresh Hnd']; subst.
      exists ((fst g, p') :: gs), c'. cbn [map fst snd sumZ fold_right].
      split; [reflexivity|]. split; [|split; [exact Hok'|split; [exact Hc'|split]]].
      * constructor; [exact Hg'|].
        apply (flying_stable st st' gs ts Hrest).
        intros uid Huid j ty'. apply Hframe. intros E. subst uid.
        contradiction.
      * fold (sumZ (map snd gs)). lia.
      * intros uid Huid j ty'. apply Hframe. intros E. apply Huid.
        left. symmetry. exact E.
  - destruct Hfl as [|g t gs ts Hg Hrest].
    + exists [], c. cbn [stepAt fst snd map].
      split; [reflexivity|]. split; [constructor|]. split; [exact Hok|].
      split; [exact Hc|]. split; reflexivity.
    + cbn [stepAt].
      inversion Hnd as [|? ? Hfresh Hnd']; subst.
      destruct (IH gs ts st c Hnd' Hok Hrest Hc)
        as (gs' & c' & Huids & Hfl' & Hok' & Hc' & Heq & Hframe).
      destruct (stepAt k ts st) as [st' ts'] eqn:Estep. cbn [fst snd] in *.
      exists (g :: gs'), c'. cbn [map fst snd sumZ fold_right].
      split; [rewrite Huids; reflexivity|].
      split; [|split; [exact Hok'|split; [exact Hc'|split]]].
      * constructor; [|exact Hfl'].
        apply (flight_stable ty0 i0 (fst g) st st' t (snd g) Hg).
        apply Hframe. exact Hfresh.
      * fold (sumZ (map snd gs')) (sumZ (map snd gs)). lia.
      * intros uid Huid j ty'. apply Hframe. intros Hin. apply Huid.
        right. exact Hin.
Qed.

Lemma interleave_flights (sched : list nat) :
  forall (gs : list (Z * Z)) (ts : list (Task Response)) (st : Store) (c : Z),
    NoDup (map fst gs) ->
    VotesOk st ->
    Forall2 (flying st) gs ts ->
    itemCounter st ty0 i0 = Some c ->
    exists gs' c',
      Forall2 (flying (fst (interleave sched ts st))) gs'
        (snd (interleave sched ts st))
      /\ VotesOk (fst (interleave sched ts st))
      /\ itemCounter (fst (interleave sched ts st)) ty0 i0 = Some c'
      /\ c' + sumZ (map snd gs')
         - tally (votes (fst (interleave sched ts st))) ty0 i0 =
         c + sumZ (map snd gs) - tally (votes st) ty0 i0.
Proof.
  induction sched as [|k sched IH]; intros gs ts st c Hnd Hok Hfl Hc.
  - exists gs, c. cbn [interleave fst snd]. auto.
  - cbn [interleave].
    destruct (stepAt_flights k gs ts st c Hnd Hok Hfl Hc)
      as (gs1 & c1 & Huids & Hfl1 & Hok1 & Hc1 & Heq1 & _).
    destruct (stepAt k ts st) as [st1 ts1]. cbn [fst snd] in *.
    rewrite <- Huids in Hnd.
    destruct (IH gs1 ts1 st1 c1 Hnd Hok1 Hfl1 Hc1)
      as (gs2 & c2 & Hfl2 & Hok2 & Hc2 & Heq2).
    exists gs2, c2. split; [exact Hfl2|]. split; [exact Hok2|].
    split; [exact Hc2|]. lia.
Qed.

Lemma flying_finished (st : Store) (gs : list (Z * Z))
  (ts : list (Task Response)) :
  Forall2 (flying st) gs ts ->
  forallb finished ts = true ->
  sumZ (map snd gs) = 0.
Proof.
  induction 1 as [|g t gs ts Hg Hrest IH]; [reflexivity|].
  cbn [forallb map sumZ fold_right]. intros H.
  apply andb_true_iff in H as [Ht Hts].
  rewrite (flight_finished _ _ _ _ _ _ Hg Ht).
  fold (sumZ (map snd gs)). rewrite (IH Hts). reflexivity.
Qed.

Lemma voteTasks_flying (st : Store) (rqs : list VoteRequest) :
  Forall2 (flying st) (map (fun rq => (voterId rq, 0)) rqs)
    (map voteTask rqs).
Proof.
  induction rqs as [|rq rqs IH]; cbn [map]; constructor; [|exact IH].
  apply castVote_in_flight.
Qed.

(** C9, as the code has it, for the item ([ty0], [i0]): requests of
    pairwise different users are served with their statements interleaved
    in any order.  Whenever all of them have answered, the counter of the
    item equals the signed sum of its vote rows, so no counter update was
    lost; and all of them have answered as soon as each was scheduled six
    times. *)
Theorem concurrent_votes_keep_counter (rqs : list VoteRequest)
  (sched : list nat) (st : Store) :
  VotesOk st ->
  NoDup (map voterId rqs) ->
  itemCounter st ty0 i0 = Some (tally (votes st) ty0 i0) ->
  let st' := fst (interleave sched (map voteTask rqs) st) in
  let ts' := snd (interleave sched (map voteTask rqs) st) in
  (forallb finished ts' = true ->
   itemCounter st' ty0 i0 = Some (tally (votes st') ty0 i0))
  /\ ((forall k, (k < List.length rqs)%nat ->
                 (6 <= count_occ Nat.eq_dec sched k)%nat) ->
      forallb finished ts' = true).
Proof.
  intros Hok Hnd Hsync st' ts'. split.
  - intros Hdone.
    destruct (interleave_flights sched
                (map (fun rq => (voterId rq, 0)) rqs) (map voteTask rqs) st
                (tally (votes st) ty0 i0))
      as (gs' & c' & Hfl & _ & Hc' & Heq).
    + rewrite map_map. cbn [fst]. exact Hnd.
    + exact Hok.
    + apply voteTasks_flying.
    + exact Hsync.
    + fold st' ts' in Hfl, Hc', Heq.
      rewrite (flying_finished st' gs' ts' Hfl Hdone) in Heq.
      replace (sumZ (map snd (map (fun rq => (voterId rq, 0)) rqs))) with 0
        in Heq.
      * rewrite Hc'. f_equal. lia.
      * clear. induction rqs as [|rq rqs IH]; [reflexivity|].
        cbn [map snd sumZ fold_right]. fold (sumZ (map snd
          (map (fun rq => (voterId rq, 0)) rqs))). rewrite <- IH. reflexivity.
  - intros Hfair. apply forallb_forall. intros t' Hin.
    apply In_nth_error in Hin as [k Hk].
    assert (k < List.length rqs)%nat as Hlt.
    { rewrite <- (length_map voteTask rqs).
      rewrite <- (interleave_length sched (map voteTask rqs) st).
      apply nth_error_Some. fold ts'. congruence. }
    apply within_0_finished.
    pose proof (interleave_within sched (map voteTask rqs) st (fun _ => 6%nat))
      as H.
    replace 0%nat with (6 - count_occ Nat.eq_dec sched k)%nat
      by (specialize (Hfair k Hlt); lia).
    apply H; [|exact Hk].
    intros j t Hj. apply nth_error_In in Hj.
    apply in_map_iff in Hj as (rq & <- & _). apply castVote_within.
Qed.
End Flights.

Lemma concurrent_votes_keep_counter_witness :
  let rqs :=
    [mkVoteRequest (mkPrincipal 1 "ana") (Some 2) (Some "post") (Some "up");
     mkVoteRequest (mkPrincipal 3 "cy") (Some 2) (Some "post") (Some "down")] in
  let sched := [0; 1; 1; 0; 0; 1; 0; 1; 1; 0; 1; 0]%nat in
  let st' := fst (interleave sched (map voteTask rqs) sampleStore) in
  forallb finished (snd (interleave sched (map voteTask rqs) sampleStore)) = true
  /\ itemCounter st' "post" 2 = Some (tally (votes st') "post" 2).
Proof.
  intros rqs sched st'.
  destruct (concurrent_votes_keep_counter "post" 2 eq_refl rqs sched sampleStore)
    as [Hsync Hdone].
  - exact sampleStore_votes_ok.
  - repeat constructor; simpl; intuition discriminate.
  - reflexivity.
  - assert (forallb finished (snd (interleave sched (map voteTask rqs) sampleStore))
            = true) as H.
    { apply Hdone. intros k Hk. destruct k as [|[|k]]; simpl in *; lia. }
    split; [exact H|]. apply Hsync. exact H.
Defined.

(** C9 as stated in the specification fails: a call is not one atomic unit.
    Two calls of different users whose statements alternate both answer with
    the counter that holds both deltas, which the first call of a serial
    execution never reports.  Two calls of one user that both toggle the same
    up vote off, their statements alternating, both find the row, delete it
    and subtract one: the counter ends at -1 over no vote row at all, whereas
    the two calls served one after the other leave the vote and the counter
    at 1. *)
Lemma castVote_calls_are_not_atomic :
  let ana := mkVoteRequest (mkPrincipal 1 "ana") (Some 2) (Some "post") (Some "up") in
  let cy := mkVoteRequest (mkPrincipal 3 "cy") (Some 2) (Some "post") (Some "up") in
  let bo := mkVoteRequest (mkPrincipal 2 "bo") (Some 1) (Some "post") (Some "up") in
  let sched := [0; 1; 0; 1; 0; 1; 0; 1; 0; 1; 0; 1]%nat in
  let reply votes :=
    Ret (mkResponse 200
           [("message", JStr "Vote created successfully");
            ("votes", JNum votes); ("userVote", JStr "up")]) in
  snd (interleave sched [voteTask ana; voteTask cy] sampleStore) =
    [reply 2; reply 2]
  /\ snd (run (voteTask ana) sampleStore) =
     Some (mkResponse 200
             [("message", JStr "Vote created successfully");
              ("votes", JNum 1); ("userVote", JStr "up")])
  /\ snd (run (voteTask cy) sampleStore) =
     Some (mkResponse 200
             [("message", JStr "Vote created successfully");
              ("votes", JNum 1); ("userVote", JStr "up")])
  /\ (let st' := fst (interleave sched [voteTask bo; voteTask bo] sampleStore) in
      forallb finished
        (snd (interleave sched [voteTask bo; voteTask bo] sampleStore)) = true
      /\ itemCounter st' "post" 1 = Some (-1)
      /\ votes st' = []
      /\ tally (votes st') "post" 1 = 0)
  /\ (let st' := serveVotes [bo; bo] sampleStore in
      itemCounter st' "post" 1 = Some 1
      /\ tally (votes st') "post" 1 = 1).
Proof. vm_compute. repeat split. Qed.

(** *** A request served alone *)

(** Scheduling a single task until it ends is [run]. *)
Lemma run_is_solo_interleave {A} (n : nat) :
  forall (t : Task A) (st : Store),
    within n t ->
    interleave (repeat 0%nat n) [t] st =
    (fst (run t st),
     [match snd (run t st) with
      | Some a => Ret a
      | None => Throw
      end]).
Proof.
  induction n as [|n IH]; intros t st Hn.
  - destruct t; cbn [within] in Hn; try contradiction; reflexivity.
  - cbn [repeat interleave stepAt].
    destruct t as [a| |R q k|u k kerr]; cbn [step run within] in *.
    + apply (IH (Ret a)). exact I.
    + apply (IH Throw). exact I.
    + apply IH. apply Hn.
    + destruct Hn as [Hk Hkerr]. destruct (u st); apply IH; assumption.
Qed.

(** ** Further properties of the routes *)

(** X2. The scenario of the specification: A casts up on post 1 (0 to 1), B
    casts up (1 to 2), A switches to down (2 to 0), A toggles down off (0 to
    1); what is left is B's up vote alone. *)
Lemma vote_scenario :
  let a := mkPrincipal 1 "ana" in
  let b := mkPrincipal 2 "bo" in
  let st0 :=
    mkStore [mkUser 1 "ana" "user" 0; mkUser 2 "bo" "user" 0]
      [mkPost 1 "first" 1 0] [] [] [] [] 0 0 0 in
  let st1 := fst (run (castVote a (Some 1) (Some "post") (Some "up")) st0) in
  let st2 := fst (run (castVote b (Some 1) (Some "post") (Some "up")) st1) in
  let st3 := fst (run (castVote a (Some 1) (Some "post") (Some "down")) st2) in
  let st4 := fst (run (castVote a (Some 1) (Some "post") (Some "down")) st3) in
  map (fun st => itemCounter st "post" 1) [st0; st1; st2; st3; st4] =
    [Some 0; Some 1; Some 2; Some 0; Some 1]
  /\ votes st4 = [mkVote 2 2 1 "post" "up"].
Proof. vm_compute. split; reflexivity. Qed.

(** X6. The report scenario of the specification: A reports comment 5 for spam,
    which is recorded pending; a moderator dismisses the report, which
    leaves one audit entry [dismiss_report]; A reports comment 5 again and
    is answered 409. *)
Lemma report_scenario :
  let a := mkPrincipal 1 "ana" in
  let st0 :=
    mkStore [mkUser 1 "ana" "user" 0; mkUser 3 "cy" "admin" 0]
      [mkPost 1 "first" 1 0] [mkComment 5 1 3 "hello" 0] [] [] [] 0 0 0 in
  let st1 := fst (run (submitReport a (Some 5) (Some "comment") (Some "spam")) st0) in
  let st2 :=
    fst (run (moderated (Some (mkPrincipal 3 "cy"))
                (fun user => dismissReport user (Some 1))) st1) in
  reports st1 = [mkReport 1 1 5 "comment" (Some "spam") "pending"]
  /\ reports st2 = [mkReport 1 1 5 "comment" (Some "spam") "dismissed"]
  /\ map action (moderation_logs st2) = ["dismiss_report"]
  /\ option_map status
       (snd (run (submitReport a (Some 5) (Some "comment") (Some "spam")) st2))
     = Some 409.
Proof. vm_compute. repeat split. Qed.

(** X5. A caller whose row has any other role than moderator or admin is turned
    away with 403 in front of every moderation route, and a caller without a
    row with 401; the store is not touched. *)
Theorem moderated_forbidden (caller : Principal)
  (handler : UserRow -> Task Response) (st : Store) :
  (forall u,
     selectUserById (principal_id caller) st = Some u ->
     includes ["moderator"; "admin"] (role u) = false ->
     run (moderated (Some caller) handler) st =
     (st, Some (errorReply 403 "Moderator access required")))
  /\ (selectUserById (principal_id caller) st = None ->
      run (moderated (Some caller) handler) st =
      (st, Some (errorReply 401 "User not found")))
  /\ run (moderated None handler) st =
     (st, Some (errorReply 401 "Authentication required")).
Proof.
  unfold moderated, requireModerator. cbn [tryCatch bind run]. repeat split.
  - intros u -> ->. reflexivity.
  - intros ->. reflexivity.
Qed.

Lemma moderated_forbidden_witness :
  run (moderated (Some (mkPrincipal 1 "ana"))
         (fun user => banUser user "cy")) sampleStore =
  (sampleStore, Some (errorReply 403 "Moderator access required")).
Proof.
  apply (proj1 (moderated_forbidden (mkPrincipal 1 "ana")
                  (fun user => banUser user "cy") sampleStore)
           (mkUser 1 "ana" "user" 0)); reflexivity.
Defined.



(** X3. Serving vote requests one after the other keeps the schema's promises on
    [votes]: in particular no user ever has two vote rows on one item. *)
Theorem serveVotes_keeps_schema (rqs : list VoteRequest) (st : Store) :
  VotesOk st -> VotesOk (serveVotes rqs st).
Proof.
  revert st. unfold serveVotes.
  induction rqs as [|rq rqs IH]; intros st Hok; [exact Hok|].
  cbn [fold_left]. apply IH. unfold serveVote.
  destruct (castVote_store_cases (voter rq) (itemId rq) (itemType rq)
              (voteType rq) st)
    as [-> | (j & ty & vt & c0 & -> & -> & -> & Hj & Hty & Hvt & Hc0)];
    [exact Hok|].
  exact (proj1 (castVote_ledger_step (voter rq) j ty vt st c0 Hj Hty Hvt Hok Hc0)).
Qed.

Lemma serveVotes_keeps_schema_witness :
  NoDup
    (map voteKey
       (votes
          (serveVotes
             [mkVoteRequest (mkPrincipal 1 "ana") (Some 1) (Some "post")
                (Some "up");
              mkVoteRequest (mkPrincipal 1 "ana") (Some 1) (Some "post")
                (Some "down")]
             sampleStore))).
Proof.
  apply votes_unique. apply serveVotes_keeps_schema.
  exact sampleStore_votes_ok.
Defined.

Lemma setVoteType_twice (a b : string) (id : Z) (vs : list VoteRow) :
  map (setVoteType a id) (map (setVoteType b id) vs) =
  map (setVoteType a id) vs.
Proof.
  rewrite map_map. apply map_ext. intros v. unfold setVoteType.
  destruct (vote_id v =? id) eqn:E; cbn [vote_id]; rewrite E; reflexivity.
Qed.

Lemma withVotes_same (st : Store) : withVotes st (votes st) (seq_votes st) = st.
Proof. destruct st. reflexivity. Qed.

(** X1. Switching the vote type and switching back brings the store back to
    what it was, with a net delta of zero, and the caller's vote is of the
    original type again. *)
Theorem castVote_switch_twice_restores (user : Principal) (i : Z)
  (ty vt : string) (st : Store) (c : Z) (ev : VoteRow) :
  i <> 0 ->
  includes ["post"; "comment"] ty = true ->
  includes ["up"; "down"] vt = true ->
  VotesOk st ->
  itemCounter st ty i = Some c ->
  selectVote (principal_id user) i ty st = Some ev ->
  vote_type ev <> vt ->
  let first := run (castVote user (Some i) (Some ty) (Some vt)) st in
  let second :=
    run (castVote user (Some i) (Some ty) (Some (vote_type ev))) (fst first) in
  itemCounter (fst first) ty i =
    Some (c + if (vt =? "up")%string then 2 else -2)
  /\ fst second = st
  /\ option_map (fun r => field "userVote" (body r)) (snd second) =
     Some (Some (JStr (vote_type ev))).
Proof.
  intros Hi Hty Hvt Hok Hc Hsel Hdiff first second.
  pose proof (votes_check _ Hok) as Hck.
  destruct (found_vote_alone _ _ _ _ _ Hok Hsel)
    as (l1 & l2 & Evs & Hkey & _ & Hupd & Hl1 & _).
  assert (includes ["up"; "down"] (vote_type ev) = true) as Hvt0.
  { rewrite forallb_forall in Hck.
    assert (In ev (votes st)) as Hin by (rewrite Evs; apply in_elt).
    specialize (Hck ev Hin). unfold checkVote in Hck.
    apply andb_true_iff in Hck as [_ Hck]. exact Hck. }
  destruct (castVote_ledger_step user i ty vt st c Hi Hty Hvt Hok Hc)
    as [Hok1 _].
  fold first in Hok1.
  set (d := if (vt =? "up")%string then 2 else -2).
  set (ev' := mkVote (vote_id ev) (principal_id user) i ty vt).
  assert (first =
          (addVotesTo (tableNameFor ty) d i
             (withVotes st (map (setVoteType vt (vote_id ev)) (votes st))
                (seq_votes st)),
           snd first)) as Efirst.
  { unfold first.
    rewrite (castVote_run_valid user i ty vt st c Hi Hty Hvt Hck Hc).
    cbv zeta. unfold voteEffect. rewrite Hsel.
    destruct (String.eqb_spec (vote_type ev) vt); [contradiction|].
    reflexivity. }
  assert (itemCounter (fst first) ty i = Some (c + d)) as Hc1.
  { rewrite Efirst. cbn [fst]. rewrite itemCounter_after by assumption.
    rewrite String.eqb_refl, Z.eqb_refl, Hc. reflexivity. }
  assert (selectVote (principal_id user) i ty (fst first) = Some ev') as Hsel1.
  { rewrite Efirst. cbn [fst]. rewrite selectVote_addVotesTo.
    unfold selectVote. cbn [votes withVotes]. rewrite Hupd.
    rewrite find_app_none by exact Hl1. cbn [find].
    unfold ev'. rewrite voteBy_refl. reflexivity. }
  split; [exact Hc1|].
  unfold second.
  rewrite (castVote_run_valid user i ty (vote_type ev) (fst first) (c + d)
             Hi Hty Hvt0 (votes_check _ Hok1) Hc1).
  cbv zeta. unfold voteEffect. rewrite Hsel1.
  destruct (String.eqb_spec (vote_type ev') (vote_type ev)) as [E|_].
  { cbn [vote_type ev'] in E. congruence. }
  assert (map (setVoteType (vote_type ev) (vote_id ev')) (votes (fst first))
          = votes st) as Hback.
  { rewrite Efirst. cbn [fst]. rewrite votes_addVotesTo. cbn [votes withVotes].
    cbn [vote_id ev']. rewrite setVoteType_twice, Hupd, Evs.
    unfold voteKey in Hkey. inversion Hkey as [[Hu Hi' Ht]].
    destruct ev; reflexivity. }
  rewrite Hback. cbn [fst snd option_map body field]. string_tests.
  split.
  - rewrite Efirst. cbn [fst]. rewrite seq_votes_addVotesTo.
    cbn [seq_votes withVotes].
    rewrite addVotesTo_cancel; [apply withVotes_same|].
    unfold d. apply includes_vote_type in Hvt, Hvt0.
    destruct Hvt as [-> | ->], Hvt0 as [E|E]; rewrite E in *; string_tests;
      try lia; congruence.
  - unfold selectVote in Hsel. rewrite Hsel. reflexivity.
Qed.

Lemma castVote_switch_twice_restores_witness :
  let bo := mkPrincipal 2 "bo" in
  let first := run (castVote bo (Some 1) (Some "post") (Some "down")) sampleStore in
  itemCounter (fst first) "post" 1 = Some (1 + -2)
  /\ fst (run (castVote bo (Some 1) (Some "post") (Some "up")) (fst first)) =
     sampleStore.
Proof.
  destruct (castVote_switch_twice_restores (mkPrincipal 2 "bo") 1 "post" "down"
              sampleStore 1 (mkVote 1 2 1 "post" "up")) as (H1 & H2 & _).
  - lia.
  - reflexivity.
  - reflexivity.
  - exact sampleStore_votes_ok.
  - reflexivity.
  - reflexivity.
  - discriminate.
  - split; [exact H1|exact H2].
Defined.
